(** * Timer and session-log engine of the pomokanban plugin

    A shallow embedding of [TimerManager] (the timer state machine, the
    session finalizer and the markdown session-log store) together with
    the parts of its collaborators that it calls: the board tree of the
    state managers, the settings tables, the event emitter, and the two
    [moment] calls it makes (formatting a timestamp, parsing a date-time).

    Conventions of the embedding:
    - JavaScript numbers that hold millisecond timestamps, counters and
      minute settings are integers and are modelled by [Z];
    - a JavaScript string that carries text (a card body, a log line) is the
      list of its UTF-16 code units; a card id is only ever compared and
      tested for emptiness and is a [string];
    - the manager is one mutable object: every method is a computation in
      the state monad [M] over [World], which holds the manager, the
      plugin's state managers and settings, the wall clock, and what the
      manager has sent to the outside (events, notices, sounds, timers,
      prompts);
    - [Date.now()] reads the [clock] field: the clock does not advance
      during one synchronous call;
    - local time is UTC plus a fixed offset of [utcOffset] minutes. *)

From Stdlib Require Import ZArith List Bool String Ascii Lia.
Import ListNotations.
Local Open Scope Z_scope.

(* ================================================================== *)
(** * JavaScript strings and the string methods the manager uses       *)
(* ================================================================== *)

Module JS.

Definition jstring := list Z.

(** The code units of an ASCII literal. *)
Definition str (s : string) : jstring :=
  map (fun a => Z.of_N (N_of_ascii a)) (list_ascii_of_string s).

(** WhiteSpace and LineTerminator code units: the class [\s] of a regular
    expression and the characters removed by [String.prototype.trim]. *)
Definition is_space (c : Z) : bool :=
  ((9 <=? c) && (c <=? 13)) || (c =? 32) || (c =? 160) || (c =? 5760)
  || ((8192 <=? c) && (c <=? 8202)) || (c =? 8232) || (c =? 8233)
  || (c =? 8239) || (c =? 8287) || (c =? 12288) || (c =? 65279).

(** The class [\d]. *)
Definition is_digit (c : Z) : bool := (48 <=? c) && (c <=? 57).

Fixpoint dropWhile (p : Z -> bool) (s : jstring) : jstring :=
  match s with
  | [] => []
  | c :: r => if p c then dropWhile p r else s
  end.

Fixpoint span (p : Z -> bool) (s : jstring) : jstring * jstring :=
  match s with
  | [] => ([], [])
  | c :: r => if p c then let (a, b) := span p r in (c :: a, b) else ([], s)
  end.

(** [s.trim()] *)
Definition trim (s : jstring) : jstring :=
  rev (dropWhile is_space (rev (dropWhile is_space s))).

(** [s.split(/\n/)]: the pieces between line feeds; never empty. *)
Fixpoint split_lines (s : jstring) : list jstring :=
  match s with
  | [] => [[]]
  | c :: r =>
      if c =? 10 then [] :: split_lines r
      else match split_lines r with
           | [] => [[c]]
           | l :: ls => (c :: l) :: ls
           end
  end.

(** [a.slice(1)] *)
Definition slice1 {A} (l : list A) : list A := tl l.

Fixpoint starts_with (p s : jstring) : bool :=
  match p, s with
  | [], _ => true
  | _ :: _, [] => false
  | a :: p', b :: s' => (a =? b) && starts_with p' s'
  end.

(** [s.includes(needle)] *)
Fixpoint includes (s needle : jstring) : bool :=
  starts_with needle s ||
  match s with
  | [] => false
  | _ :: r => includes r needle
  end.

(** [parseInt(s, 10)] on a string of decimal digits (the only strings the
    manager passes are captures of [\d+]). *)
Definition parseInt (s : jstring) : Z :=
  fold_left (fun acc c => 10 * acc + (c - 48)) s 0.

(** Decimal digits of a non-negative integer, most significant first. *)
Fixpoint digits_aux (fuel : nat) (n : Z) (acc : jstring) : jstring :=
  match fuel with
  | O => acc
  | S f =>
      let acc' := (48 + n mod 10) :: acc in
      if n <? 10 then acc' else digits_aux f (n / 10) acc'
  end.

Definition digits (n : Z) : jstring :=
  digits_aux (S (Z.to_nat (Z.log2 n))) n [].

(** [String(n)] for an integer [n]. *)
Definition String_ (n : Z) : jstring :=
  if n <? 0 then 45 :: digits (- n) else digits n.

(** [Math.round(a / b)] for integers [a] and [b > 0]: the nearest
    integer, a tie going up. *)
Definition Math_round_div (a b : Z) : Z := (2 * a + b) / (2 * b).

(** The remainder operator [%] on integers: the sign follows the
    dividend. *)
Definition rem (a b : Z) : Z := Z.rem a b.

(** A value is "truthy" as a card id when it is a non-empty string. *)
Definition truthy (c : option string) : bool :=
  match c with
  | Some s => negb (String.eqb s EmptyString)
  | None => false
  end.

(** Strict equality of two optional strings. *)
Definition same_id (a b : option string) : bool :=
  match a, b with
  | Some x, Some y => String.eqb x y
  | None, None => true
  | _, _ => false
  end.

(** Reading exactly [n] digits. *)
Fixpoint take_digits (n : nat) (s : jstring) : option (jstring * jstring) :=
  match n with
  | O => Some ([], s)
  | S k =>
      match s with
      | c :: r =>
          if is_digit c then
            match take_digits k r with
            | Some (a, b) => Some (c :: a, b)
            | None => None
            end
          else None
      | [] => None
      end
  end.

Definition expect (c : Z) (s : jstring) : option jstring :=
  match s with
  | x :: r => if x =? c then Some r else None
  | [] => None
  end.

(** Sequencing of scanning steps: the first step that fails ends the
    scan. *)
Notation "'scan' p <- e 'then' k" :=
  (match e with Some p => k | None => None end)
  (at level 10, p pattern, e at level 100, k at level 200,
   format "'[v' 'scan'  p  <-  e  'then' '/' k ']'").

(** [Array.prototype.map] allocates the array it returns, so its result is
    never the same object as the array it was called on: [===] between the
    two compares object identities and is false whatever the contents. *)
Definition same_array {A} (original mapped : list A) : bool := false.

End JS.
Import JS.

(* ================================================================== *)
(** * The two [moment] calls                                           *)
(* ================================================================== *)

Module Moment.

(** Proleptic Gregorian calendar: day number (days since 1970-01-01) of a
    civil date, and back. *)
Definition days_from_civil (y m d : Z) : Z :=
  let y' := if m <=? 2 then y - 1 else y in
  let era := y' / 400 in
  let yoe := y' - era * 400 in
  let mp := (m + 9) mod 12 in
  let doy := (153 * mp + 2) / 5 + d - 1 in
  let doe := yoe * 365 + yoe / 4 - yoe / 100 + doy in
  era * 146097 + doe - 719468.

Definition civil_from_days (z : Z) : Z * Z * Z :=
  let z' := z + 719468 in
  let era := z' / 146097 in
  let doe := z' mod 146097 in
  let yoe := (doe - doe / 1460 + doe / 36524 - doe / 146096) / 365 in
  let doy := doe - (365 * yoe + yoe / 4 - yoe / 100) in
  let mp := (5 * doy + 2) / 153 in
  let d := doy - (153 * mp + 2) / 5 + 1 in
  let m := if mp <? 10 then mp + 3 else mp - 9 in
  let y := yoe + era * 400 in
  (if m <=? 2 then y + 1 else y, m, d).

Definition isLeapYear (y : Z) : bool :=
  ((y mod 4 =? 0) && negb (y mod 100 =? 0)) || (y mod 400 =? 0).

Definition daysInMonth (y m : Z) : Z :=
  if m =? 2 then (if isLeapYear y then 29 else 28)
  else if (m =? 4) || (m =? 6) || (m =? 9) || (m =? 11) then 30
  else 31.

Definition ms_per_minute : Z := 60000.
Definition ms_per_hour : Z := 3600000.
Definition ms_per_day : Z := 86400000.

(** Local wall-clock milliseconds of a timestamp. *)
Definition local_ms (utcOffset t : Z) : Z := t + utcOffset * ms_per_minute.

(** [zeroFill(number, targetLength)] of moment's formatter. *)
Definition zeroFill (n len : Z) : jstring :=
  let absNumber := digits (Z.abs n) in
  let zerosToFill := len - Z.of_nat (List.length absNumber) in
  (if 0 <=? n then [] else [45])
    ++ repeat 48 (Z.to_nat (Z.max 0 zerosToFill)) ++ absNumber.

(** [moment(t).format('YYYY-MM-DD')] *)
Definition format_date (utcOffset t : Z) : jstring :=
  let '(y, m, d) := civil_from_days (local_ms utcOffset t / ms_per_day) in
  zeroFill y 4 ++ 45 :: zeroFill m 2 ++ 45 :: zeroFill d 2.

(** [moment(t).format('HH:mm')] *)
Definition format_time (utcOffset t : Z) : jstring :=
  let msod := local_ms utcOffset t mod ms_per_day in
  zeroFill (msod / ms_per_hour) 2 ++ 58 :: zeroFill (msod / ms_per_minute mod 60) 2.

(** The fields of a string of the shape [dddd-dd-dd dd:dd] (the only shape
    the manager passes, both parts being captures of the line grammar). *)
Definition read_fields (s : jstring) : option (Z * Z * Z * Z * Z) :=
  scan (ys, s1) <- take_digits 4 s then
  scan s2 <- expect 45 s1 then
  scan (ms, s3) <- take_digits 2 s2 then
  scan s4 <- expect 45 s3 then
  scan (ds, s5) <- take_digits 2 s4 then
  scan s6 <- expect 32 s5 then
  scan (hs, s7) <- take_digits 2 s6 then
  scan s8 <- expect 58 s7 then
  scan (mins, _) <- take_digits 2 s8 then
  Some (parseInt ys, parseInt ms, parseInt ds, parseInt hs, parseInt mins).

(** moment's overflow check on the parsed fields: the month is 1..12, the
    day exists in that month, the hour is 0..24 with 24 only as 24:00, the
    minute is 0..59. *)
Definition fields_valid (y m d h mi : Z) : bool :=
  (1 <=? m) && (m <=? 12) && (1 <=? d) && (d <=? daysInMonth y m)
  && (0 <=? h) && ((h <? 24) || ((h =? 24) && (mi =? 0)))
  && (0 <=? mi) && (mi <=? 59).

(** [moment(s, 'YYYY-MM-DD HH:mm')]: [None] is an invalid moment
    ([isValid()] false), [Some t] a valid one with [valueOf() = t]. 24:00
    is midnight of the next day. *)
Definition parse (utcOffset : Z) (s : jstring) : option Z :=
  match read_fields s with
  | Some (y, m, d, h, mi) =>
      if fields_valid y m d h mi then
        Some (days_from_civil y m d * ms_per_day + h * ms_per_hour
              + mi * ms_per_minute - utcOffset * ms_per_minute)
      else None
  | None => None
  end.

End Moment.

(* ================================================================== *)
(** * Data model                                                       *)
(* ================================================================== *)

Inductive TimerMode := stopwatch | pomodoro | break.

Definition mode_eqb (a b : TimerMode) : bool :=
  match a, b with
  | stopwatch, stopwatch | pomodoro, pomodoro | break, break => true
  | _, _ => false
  end.

Module TimerState.
Record t := mk {
  running : bool;
  mode : TimerMode;
  start : Z;
  elapsed : Z;
  targetCardId : option string
}.
End TimerState.

Module FocusSession.
Record t := mk {
  cardId : option string;
  cardTitle : option jstring;
  mode : TimerMode;
  start : Z;
  end_ : Z;
  duration : Z
}.
End FocusSession.

(** ** The board tree of a state manager *)

(** A card: [id], [data.title], [data.titleRaw], [children]. *)
#[local] Unset Elimination Schemes.
Inductive Item := mkItem (id : string) (title titleRaw : jstring) (children : list Item).
#[local] Set Elimination Schemes.

Module Item.
Definition id (it : Item) := let '(mkItem i _ _ _) := it in i.
Definition title (it : Item) := let '(mkItem _ t _ _) := it in t.
Definition titleRaw (it : Item) := let '(mkItem _ _ r _) := it in r.
Definition children (it : Item) := let '(mkItem _ _ _ c) := it in c.
End Item.

Module Lane.
Record t := mk { id : string; children : list Item }.
End Lane.

Module Board.
Record t := mk { children : list Lane.t }.
End Board.

(** What the manager uses of a [StateManager]: its board, its setting
    lookup ([None] when the key has no value) and its card rewriter. *)
Module StateManager.
Record t := mk {
  state : Board.t;
  getSetting : string -> option Z;
  updateItemContent : Item -> jstring -> Item
}.
Definition setState (sm : t) (b : Board.t) : t :=
  mk b (getSetting sm) (updateItemContent sm).
End StateManager.

(** The plugin: its state managers in the iteration order of the
    [stateManagers] map (the map is created with the plugin, so the
    manager's tests for a missing map never fire, and a board always has
    its array of lanes), and its global settings table. *)
Module Plugin.
Record t := mk {
  stateManagers : list StateManager.t;
  settings : string -> option Z
}.
End Plugin.

(** ** The manager object *)

Record Manager := mkManager {
  state : TimerState.t;
  logs : list FocusSession.t;
  currentSessionStart : Z;
  markdownParsed : bool;
  lastParsedSmCount : Z;
  pomodoroDefault : Z;
  breakDurationMs : Z;
  pomodoroCount : Z;
  shortBreakMs : Z;
  longBreakMs : Z;
  longBreakInterval : Z;
  autoRounds : Z;
  lastWorkMode : TimerMode;
  lastWorkCardId : option string;
  currentAutoRound : Z
}.

(** ** What the manager sends out *)

Inductive Event := ev_tick | ev_start | ev_stop | ev_change | ev_log.

Inductive NoticeText :=
| SelectACard
| BreakOver
| BreakSkipped
| TooShortToRecord
| TimerStopped (reason : jstring)
| AutoStartingPomodoro (round total : Z)
| CompletedRounds (rounds : Z).

Inductive Effect :=
| Emit (e : Event)
| Notice (n : NoticeText)
| EndSound
| OpenStopReasonModal
| SetState (k : nat).

(** Callbacks handed to [setTimeout]. *)
Inductive Deferred :=
| StartOnLastWorkCard          (* () => start('pomodoro', this.lastWorkCardId) *)
| StartOnCard (c : option string)  (* () => start('pomodoro', targetCardId) *)
| ClearAutoRound.              (* () => currentAutoRound = 0 *)

Record World := mkWorld {
  this : Manager;
  plugin : Plugin.t;
  clock : Z;
  utcOffset : Z;
  effects : list Effect;
  timeouts : list Deferred;
  prompts : nat
}.

(* ================================================================== *)
(** * The log-line grammar and the line formatter                      *)
(* ================================================================== *)

Module LogLine.

(** The non-ASCII literals, character by character as the text of the
    source file has them: code units U+F8FF U+00FC U+00E7 U+00D6 for the
    pomodoro marker, U+201A U+00E8 U+00B1 for the stopwatch marker, and
    U+201A U+00C4 U+00EC and U+201A U+00C4 U+00EE where the comment above
    the expression speaks of two long dashes. (These are the characters
    that the UTF-8 bytes of a tomato, a stopwatch, an en dash and an em dash
    become when read in the Mac Roman code page; the file holds them in this
    form.) Inside the brackets of the expression each character is a
    member of the class on its own, so the class has five distinct members
    and matches one code unit, while the dash that the formatter writes
    between the two times is three code units long. *)
Definition TOMATO : jstring := [63743; 252; 231; 214].
Definition STOPWATCH : jstring := [8218; 232; 177].
Definition DASH_CLASS : list Z := [8218; 196; 236; 8218; 196; 238; 45].
Definition DASH : jstring := [8218; 196; 236].

(** *** [lineRegex]

    Each step consumes a prefix of the input and returns the rest. Every
    greedy quantifier of the expression is followed by an atom that cannot
    begin with a character of the quantified class, so the greedy match is
    the only one and the steps below need no backtracking, except for the
    optional bullet, which is tried first and then left out. *)

Definition lit (p s : jstring) : option jstring :=
  if starts_with p s then Some (skipn (List.length p) s) else None.

(** [\s*] *)
Definition ws_star (s : jstring) : jstring := dropWhile is_space s.

(** [\s+] *)
Definition ws_plus (s : jstring) : option jstring :=
  match s with
  | c :: r => if is_space c then Some (dropWhile is_space r) else None
  | [] => None
  end.

(** A character class *)
Definition one_of (cls : list Z) (s : jstring) : option jstring :=
  match s with
  | c :: r => if existsb (Z.eqb c) cls then Some r else None
  | [] => None
  end.

(** [(\d+)] *)
Definition digits_plus (s : jstring) : option (jstring * jstring) :=
  match span is_digit s with
  | ([], _) => None
  | (a, b) => Some (a, b)
  end.

(** [(\d{4}-\d{2}-\d{2})] *)
Definition date_group (s : jstring) : option (jstring * jstring) :=
  scan (y, s1) <- take_digits 4 s then
  scan s2 <- expect 45 s1 then
  scan (m, s3) <- take_digits 2 s2 then
  scan s4 <- expect 45 s3 then
  scan (d, s5) <- take_digits 2 s4 then
  Some (y ++ 45 :: m ++ 45 :: d, s5).

(** [(\d{2}:\d{2})] *)
Definition time_group (s : jstring) : option (jstring * jstring) :=
  scan (h, s1) <- take_digits 2 s then
  scan s2 <- expect 58 s1 then
  scan (m, s3) <- take_digits 2 s2 then
  Some (h ++ 58 :: m, s3).

(** [(?:\+\+|TOMATO|STOPWATCH)] *)
Definition marker (s : jstring) : option jstring :=
  match lit (str "++") s with
  | Some r => Some r
  | None =>
    match lit TOMATO s with
    | Some r => Some r
    | None => lit STOPWATCH s
    end
  end.

(** [(?:[-*]\s+)] *)
Definition bullet (s : jstring) : option jstring :=
  scan r <- one_of [45; 42] s then ws_plus r.

Record groups := mkGroups {
  dateStr : jstring; startStr : jstring; endStr : jstring; minsStr : jstring
}.

(** From the marker to the final [m]. *)
Definition after_bullet (s : jstring) : option groups :=
  scan s1 <- marker s then
  scan s2 <- ws_plus s1 then
  scan (date, s3) <- date_group s2 then
  scan s4 <- ws_plus s3 then
  scan (st, s5) <- time_group s4 then
  scan s6 <- one_of DASH_CLASS (ws_star s5) then
  scan (en, s7) <- time_group (ws_star s6) then
  scan s8 <- ws_plus s7 then
  scan s9 <- expect 40 s8 then
  scan (mins, s10) <- digits_plus s9 then
  scan s11 <- ws_plus s10 then
  scan _ <- expect 109 s11 then
  Some (mkGroups date st en mins).

(** [s.match(lineRegex)] *)
Definition match_ (s : jstring) : option groups :=
  match bullet s with
  | Some r =>
      match after_bullet r with
      | Some g => Some g
      | None => after_bullet s
      end
  | None => after_bullet s
  end.

(** The template literal of [appendSessionToMarkdown], with the dash
    between the two times as a parameter. *)
Definition layout (dash : jstring) (utcOffset start end_ duration : Z) : jstring :=
  str "++ " ++ Moment.format_date utcOffset start ++ str " "
    ++ Moment.format_time utcOffset start ++ str " " ++ dash ++ str " "
    ++ Moment.format_time utcOffset end_ ++ str " ("
    ++ String_ (Math_round_div duration 60000) ++ str " m)".

(** The line [appendSessionToMarkdown] writes. *)
Definition line (utcOffset start end_ duration : Z) : jstring :=
  layout DASH utcOffset start end_ duration.

(** The body of the innermost loop of [extractItemLogsRecursive], up to
    the duplicate test: the session a line of card [it] stands for. *)
Definition session_of_line (utcOffset : Z) (it : Item) (ln : jstring)
  : option FocusSession.t :=
  match match_ (trim ln) with
  | Some g =>
      match Moment.parse utcOffset (dateStr g ++ str " " ++ startStr g),
            Moment.parse utcOffset (dateStr g ++ str " " ++ endStr g) with
      | Some start, Some end_ =>
          let duration := parseInt (minsStr g) * 60000 in
          if (0 <? duration) && (start <? end_) then
            Some (FocusSession.mk (Some (Item.id it)) (Some (Item.title it))
                    (if includes ln TOMATO then pomodoro else stopwatch)
                    start end_ duration)
          else None
      | _, _ => None
      end
  | None => None
  end.

End LogLine.

(* ================================================================== *)
(** * Field assignment                                                 *)
(* ================================================================== *)

(** [set_f v m] is the manager [m] after [this.f = v]. *)
Definition set_state v (m : Manager) : Manager :=
  mkManager v (logs m) (currentSessionStart m) (markdownParsed m) (lastParsedSmCount m) (pomodoroDefault m) (breakDurationMs m) (pomodoroCount m) (shortBreakMs m) (longBreakMs m) (longBreakInterval m) (autoRounds m) (lastWorkMode m) (lastWorkCardId m) (currentAutoRound m).
Definition set_logs v (m : Manager) : Manager :=
  mkManager (state m) v (currentSessionStart m) (markdownParsed m) (lastParsedSmCount m) (pomodoroDefault m) (breakDurationMs m) (pomodoroCount m) (shortBreakMs m) (longBreakMs m) (longBreakInterval m) (autoRounds m) (lastWorkMode m) (lastWorkCardId m) (currentAutoRound m).
Definition set_currentSessionStart v (m : Manager) : Manager :=
  mkManager (state m) (logs m) v (markdownParsed m) (lastParsedSmCount m) (pomodoroDefault m) (breakDurationMs m) (pomodoroCount m) (shortBreakMs m) (longBreakMs m) (longBreakInterval m) (autoRounds m) (lastWorkMode m) (lastWorkCardId m) (currentAutoRound m).
Definition set_markdownParsed v (m : Manager) : Manager :=
  mkManager (state m) (logs m) (currentSessionStart m) v (lastParsedSmCount m) (pomodoroDefault m) (breakDurationMs m) (pomodoroCount m) (shortBreakMs m) (longBreakMs m) (longBreakInterval m) (autoRounds m) (lastWorkMode m) (lastWorkCardId m) (currentAutoRound m).
Definition set_lastParsedSmCount v (m : Manager) : Manager :=
  mkManager (state m) (logs m) (currentSessionStart m) (markdownParsed m) v (pomodoroDefault m) (breakDurationMs m) (pomodoroCount m) (shortBreakMs m) (longBreakMs m) (longBreakInterval m) (autoRounds m) (lastWorkMode m) (lastWorkCardId m) (currentAutoRound m).
Definition set_pomodoroDefault v (m : Manager) : Manager :=
  mkManager (state m) (logs m) (currentSessionStart m) (markdownParsed m) (lastParsedSmCount m) v (breakDurationMs m) (pomodoroCount m) (shortBreakMs m) (longBreakMs m) (longBreakInterval m) (autoRounds m) (lastWorkMode m) (lastWorkCardId m) (currentAutoRound m).
Definition set_breakDurationMs v (m : Manager) : Manager :=
  mkManager (state m) (logs m) (currentSessionStart m) (markdownParsed m) (lastParsedSmCount m) (pomodoroDefault m) v (pomodoroCount m) (shortBreakMs m) (longBreakMs m) (longBreakInterval m) (autoRounds m) (lastWorkMode m) (lastWorkCardId m) (currentAutoRound m).
Definition set_pomodoroCount v (m : Manager) : Manager :=
  mkManager (state m) (logs m) (currentSessionStart m) (markdownParsed m) (lastParsedSmCount m) (pomodoroDefault m) (breakDurationMs m) v (shortBreakMs m) (longBreakMs m) (longBreakInterval m) (autoRounds m) (lastWorkMode m) (lastWorkCardId m) (currentAutoRound m).
Definition set_shortBreakMs v (m : Manager) : Manager :=
  mkManager (state m) (logs m) (currentSessionStart m) (markdownParsed m) (lastParsedSmCount m) (pomodoroDefault m) (breakDurationMs m) (pomodoroCount m) v (longBreakMs m) (longBreakInterval m) (autoRounds m) (lastWorkMode m) (lastWorkCardId m) (currentAutoRound m).
Definition set_longBreakMs v (m : Manager) : Manager :=
  mkManager (state m) (logs m) (currentSessionStart m) (markdownParsed m) (lastParsedSmCount m) (pomodoroDefault m) (breakDurationMs m) (pomodoroCount m) (shortBreakMs m) v (longBreakInterval m) (autoRounds m) (lastWorkMode m) (lastWorkCardId m) (currentAutoRound m).
Definition set_longBreakInterval v (m : Manager) : Manager :=
  mkManager (state m) (logs m) (currentSessionStart m) (markdownParsed m) (lastParsedSmCount m) (pomodoroDefault m) (breakDurationMs m) (pomodoroCount m) (shortBreakMs m) (longBreakMs m) v (autoRounds m) (lastWorkMode m) (lastWorkCardId m) (currentAutoRound m).
Definition set_autoRounds v (m : Manager) : Manager :=
  mkManager (state m) (logs m) (currentSessionStart m) (markdownParsed m) (lastParsedSmCount m) (pomodoroDefault m) (breakDurationMs m) (pomodoroCount m) (shortBreakMs m) (longBreakMs m) (longBreakInterval m) v (lastWorkMode m) (lastWorkCardId m) (currentAutoRound m).
Definition set_lastWorkMode v (m : Manager) : Manager :=
  mkManager (state m) (logs m) (currentSessionStart m) (markdownParsed m) (lastParsedSmCount m) (pomodoroDefault m) (breakDurationMs m) (pomodoroCount m) (shortBreakMs m) (longBreakMs m) (longBreakInterval m) (autoRounds m) v (lastWorkCardId m) (currentAutoRound m).
Definition set_lastWorkCardId v (m : Manager) : Manager :=
  mkManager (state m) (logs m) (currentSessionStart m) (markdownParsed m) (lastParsedSmCount m) (pomodoroDefault m) (breakDurationMs m) (pomodoroCount m) (shortBreakMs m) (longBreakMs m) (longBreakInterval m) (autoRounds m) (lastWorkMode m) v (currentAutoRound m).
Definition set_currentAutoRound v (m : Manager) : Manager :=
  mkManager (state m) (logs m) (currentSessionStart m) (markdownParsed m) (lastParsedSmCount m) (pomodoroDefault m) (breakDurationMs m) (pomodoroCount m) (shortBreakMs m) (longBreakMs m) (longBreakInterval m) (autoRounds m) (lastWorkMode m) (lastWorkCardId m) v.

(** [this.state.f = v] *)
Definition st_running v (s : TimerState.t) : TimerState.t :=
  TimerState.mk v (TimerState.mode s) (TimerState.start s) (TimerState.elapsed s) (TimerState.targetCardId s).
Definition st_mode v (s : TimerState.t) : TimerState.t :=
  TimerState.mk (TimerState.running s) v (TimerState.start s) (TimerState.elapsed s) (TimerState.targetCardId s).
Definition st_start v (s : TimerState.t) : TimerState.t :=
  TimerState.mk (TimerState.running s) (TimerState.mode s) v (TimerState.elapsed s) (TimerState.targetCardId s).
Definition st_elapsed v (s : TimerState.t) : TimerState.t :=
  TimerState.mk (TimerState.running s) (TimerState.mode s) (TimerState.start s) v (TimerState.targetCardId s).
Definition st_targetCardId v (s : TimerState.t) : TimerState.t :=
  TimerState.mk (TimerState.running s) (TimerState.mode s) (TimerState.start s) (TimerState.elapsed s) v.

Definition w_this v (w : World) : World :=
  mkWorld v (plugin w) (clock w) (utcOffset w) (effects w) (timeouts w) (prompts w).
Definition w_plugin v (w : World) : World :=
  mkWorld (this w) v (clock w) (utcOffset w) (effects w) (timeouts w) (prompts w).
Definition w_clock v (w : World) : World :=
  mkWorld (this w) (plugin w) v (utcOffset w) (effects w) (timeouts w) (prompts w).
Definition w_effects v (w : World) : World :=
  mkWorld (this w) (plugin w) (clock w) (utcOffset w) v (timeouts w) (prompts w).
Definition w_timeouts v (w : World) : World :=
  mkWorld (this w) (plugin w) (clock w) (utcOffset w) (effects w) v (prompts w).
Definition w_prompts v (w : World) : World :=
  mkWorld (this w) (plugin w) (clock w) (utcOffset w) (effects w) (timeouts w) v.

(* ================================================================== *)
(** * The state monad of the manager's methods                         *)
(* ================================================================== *)

Definition M (A : Type) : Type := World -> A * World.

Definition ret {A} (a : A) : M A := fun w => (a, w).

Definition bind {A B} (m : M A) (k : A -> M B) : M B :=
  fun w => let (a, w') := m w in k a w'.

Declare Scope timer_scope.
Delimit Scope timer_scope with timer.
Notation "x <- m ;; k" := (bind m (fun x => k))
  (at level 61, m at next level, right associativity) : timer_scope.
Notation "m ;; k" := (bind m (fun _ => k))
  (at level 61, right associativity) : timer_scope.
Local Open Scope timer_scope.

(** The world after running a method. *)
Definition exec {A} (m : M A) (w : World) : World := snd (m w).
(** The value a method returns. *)
Definition eval {A} (m : M A) (w : World) : A := fst (m w).

(** Reading a field of [this]. *)
Definition read {A} (f : Manager -> A) : M A := fun w => (f (this w), w).
(** Assigning to [this]. *)
Definition assign (f : Manager -> Manager) : M unit :=
  fun w => (tt, w_this (f (this w)) w).
(** Reading a field of [this.state]. *)
Definition read_state {A} (f : TimerState.t -> A) : M A := read (fun m => f (state m)).
(** Assigning to [this.state]. *)
Definition assign_state (f : TimerState.t -> TimerState.t) : M unit :=
  assign (fun m => set_state (f (state m)) m).

Definition the_plugin : M Plugin.t := fun w => (plugin w, w).
Definition Date_now : M Z := fun w => (clock w, w).

Definition effect (e : Effect) : M unit :=
  fun w => (tt, w_effects (effects w ++ [e]) w).
(** [this.emitter.emit(e)] *)
Definition emit (e : Event) : M unit := effect (Emit e).
(** [new Notice(text)] *)
Definition notice (n : NoticeText) : M unit := effect (Notice n).
(** [setTimeout(callback, 1000)] *)
Definition setTimeout (d : Deferred) : M unit :=
  fun w => (tt, w_timeouts (timeouts w ++ [d]) w).

Definition when (b : bool) (m : M unit) : M unit := if b then m else ret tt.

(** [new StopReasonModal(...).open()]: one more prompt awaits an answer. *)
Definition openStopReasonModal : M unit :=
  effect OpenStopReasonModal ;;
  fun w => (tt, w_prompts (S (prompts w)) w).

Definition closePrompt : M unit :=
  fun w => (tt, w_prompts (pred (prompts w)) w).

(** [playEndSound]: the request for the end-of-session sound; whether and
    what is played is decided from the sound settings by the audio sink. *)
Definition playEndSound : M unit := effect EndSound.

(* ================================================================== *)
(** * Duration settings                                                *)
(* ================================================================== *)

(** A JavaScript number read from a settings table: [None] is [NaN]
    (the result of [Number(undefined)]). *)
Definition Number (v : option Z) : option Z := v.

(** [!isNaN(x) && x > 0] *)
Definition is_positive (x : option Z) : bool :=
  match x with Some n => 0 <? n | None => false end.

(** [x || d] *)
Definition or_default (x : option Z) (d : Z) : Z :=
  match x with Some n => if n =? 0 then d else n | None => d end.

(** The number held by a value known to be one. *)
Definition num (x : option Z) : Z := match x with Some n => n | None => 0 end.

Definition updateSettings : M unit :=
  p <- the_plugin ;;
  let settings := Plugin.settings p in
  let pomodoroMin := Number (settings "timer-pomodoro"%string) in
  (if is_positive pomodoroMin
   then assign (set_pomodoroDefault (num pomodoroMin * 60 * 1000))
   else assign (set_pomodoroDefault (25 * 60 * 1000))) ;;
  let shortMin := Number (settings "timer-short-break"%string) in
  let longMin := Number (settings "timer-long-break"%string) in
  let interval := or_default (Number (settings "timer-long-break-interval"%string)) 4 in
  let autoRounds := or_default (Number (settings "timer-auto-rounds"%string)) 0 in
  assign (set_shortBreakMs (if is_positive shortMin then num shortMin * 60 * 1000 else 5 * 60 * 1000)) ;;
  assign (set_longBreakMs (if is_positive longMin then num longMin * 60 * 1000 else 15 * 60 * 1000)) ;;
  assign (set_longBreakInterval interval) ;;
  assign (set_autoRounds autoRounds).

(** [contains(board)] of [resolveTimerSettingForCard]: some node of the
    board (a lane or a card at any depth) has the id. The source walks the
    nodes with an explicit stack; the order of the walk does not change
    the answer. *)
Fixpoint item_contains (cardId : string) (it : Item) : bool :=
  match it with
  | mkItem i _ _ ch => String.eqb i cardId || existsb (item_contains cardId) ch
  end.

Definition contains (cardId : string) (board : Board.t) : bool :=
  existsb (fun lane => String.eqb (Lane.id lane) cardId
                       || existsb (item_contains cardId) (Lane.children lane))
          (Board.children board).

Fixpoint resolve_in (sms : list StateManager.t) (cardId settingKey : string) : option Z :=
  match sms with
  | [] => None
  | sm :: rest =>
      if contains cardId (StateManager.state sm) then
        match StateManager.getSetting sm settingKey with
        | Some val => Number (Some val)
        | None => resolve_in rest cardId settingKey
        end
      else resolve_in rest cardId settingKey
  end.

(** [None] is [null]. *)
Definition resolveTimerSettingForCard (cardId : option string) (settingKey : string)
  : M (option Z) :=
  match cardId with
  | Some c =>
      if truthy cardId then
        p <- the_plugin ;; ret (resolve_in (Plugin.stateManagers p) c settingKey)
      else ret None
  | None => ret None
  end.

Definition applyTimerSettingsForCard (cardId : option string) : M unit :=
  if negb (truthy cardId) then updateSettings
  else
    localPomodoro <- resolveTimerSettingForCard cardId "timer-pomodoro" ;;
    localShortBreak <- resolveTimerSettingForCard cardId "timer-short-break" ;;
    localLongBreak <- resolveTimerSettingForCard cardId "timer-long-break" ;;
    localLongBreakInterval <- resolveTimerSettingForCard cardId "timer-long-break-interval" ;;
    localAutoRounds <- resolveTimerSettingForCard cardId "timer-auto-rounds" ;;
    p <- the_plugin ;;
    let settings := Plugin.settings p in
    (if is_positive localPomodoro
     then assign (set_pomodoroDefault (num localPomodoro * 60 * 1000))
     else
       let pomodoroMin := Number (settings "timer-pomodoro"%string) in
       assign (set_pomodoroDefault
                 (if is_positive pomodoroMin then num pomodoroMin * 60 * 1000 else 25 * 60 * 1000))) ;;
    (if is_positive localShortBreak
     then assign (set_shortBreakMs (num localShortBreak * 60 * 1000))
     else
       let shortMin := Number (settings "timer-short-break"%string) in
       assign (set_shortBreakMs
                 (if is_positive shortMin then num shortMin * 60 * 1000 else 5 * 60 * 1000))) ;;
    (if is_positive localLongBreak
     then assign (set_longBreakMs (num localLongBreak * 60 * 1000))
     else
       let longMin := Number (settings "timer-long-break"%string) in
       assign (set_longBreakMs
                 (if is_positive longMin then num longMin * 60 * 1000 else 15 * 60 * 1000))) ;;
    (if is_positive localLongBreakInterval
     then assign (set_longBreakInterval (num localLongBreakInterval))
     else
       assign (set_longBreakInterval
                 (or_default (Number (settings "timer-long-break-interval"%string)) 4))) ;;
    (match localAutoRounds with
     | Some n =>
         if 0 <=? n then assign (set_autoRounds n)
         else assign (set_autoRounds (or_default (Number (settings "timer-auto-rounds"%string)) 0))
     | None =>
         assign (set_autoRounds (or_default (Number (settings "timer-auto-rounds"%string)) 0))
     end).

(* ================================================================== *)
(** * Looking cards up and writing to them                             *)
(* ================================================================== *)

Definition nonempty (s : jstring) : bool :=
  match s with [] => false | _ :: _ => true end.

(** [findItemInLane] applied to the children of a node: the first card, in
    document order and parents before children, that has a non-empty title
    and the given id. *)
Fixpoint findItem (cardId : string) (it : Item) : option Item :=
  match it with
  | mkItem i t _ ch =>
      if nonempty t && String.eqb i cardId then Some it
      else
        (fix among (l : list Item) : option Item :=
           match l with
           | [] => None
           | child :: rest =>
               match findItem cardId child with
               | Some found => Some found
               | None => among rest
               end
           end) ch
  end.

Fixpoint findItemIn (cardId : string) (children : list Item) : option Item :=
  match children with
  | [] => None
  | child :: rest =>
      match findItem cardId child with
      | Some found => Some found
      | None => findItemIn cardId rest
      end
  end.

Definition findItemInLane (lane : Lane.t) (cardId : string) : option Item :=
  findItemIn cardId (Lane.children lane).

Fixpoint findInLanes (lanes : list Lane.t) (cardId : string) : option Item :=
  match lanes with
  | [] => None
  | lane :: rest =>
      match findItemInLane lane cardId with
      | Some item => Some item
      | None => findInLanes rest cardId
      end
  end.

Fixpoint titleIn (sms : list StateManager.t) (cardId : string) : option jstring :=
  match sms with
  | [] => None
  | sm :: rest =>
      match findInLanes (Board.children (StateManager.state sm)) cardId with
      | Some item => Some (Item.title item)
      | None => titleIn rest cardId
      end
  end.

Definition getCardTitle (cardId : option string) : M (option jstring) :=
  match cardId with
  | Some c =>
      if truthy cardId then
        p <- the_plugin ;; ret (titleIn (Plugin.stateManagers p) c)
      else ret None
  | None => ret None
  end.

(** [updateItems] of [appendToBoard] on one card. *)
Fixpoint updateItem (sm : StateManager.t) (cardId : string) (line : jstring)
         (it : Item) : Item :=
  match it with
  | mkItem i t raw ch =>
      if String.eqb i cardId then
        let newContent := raw ++ 10 :: line in
        StateManager.updateItemContent sm it newContent
      else
        match ch with
        | [] => it
        | _ :: _ =>
            let newChildren := map (updateItem sm cardId line) ch in
            if negb (same_array ch newChildren) then mkItem i t raw newChildren
            else it
        end
  end.

Definition updateItems sm cardId line (items : list Item) : list Item :=
  map (updateItem sm cardId line) items.

Definition traverseLanes sm cardId line (lanes : list Lane.t) : list Lane.t :=
  map (fun lane =>
         let newChildren := updateItems sm cardId line (Lane.children lane) in
         if negb (same_array (Lane.children lane) newChildren)
         then Lane.mk (Lane.id lane) newChildren
         else lane) lanes.

(** [None] is [null]. *)
Definition appendToBoard (sm : StateManager.t) (board : Board.t)
           (cardId : string) (line : jstring) : option Board.t :=
  let newLanes := traverseLanes sm cardId line (Board.children board) in
  if same_array (Board.children board) newLanes then None
  else Some (Board.mk newLanes).

(** The loop of [appendSessionToMarkdown] over the state managers, from
    the [k]-th on: the state managers afterwards and the [setState] call
    made, if any. The loop ends at the first board for which
    [appendToBoard] returns a board. *)
Fixpoint appendLoop (k : nat) (sms : list StateManager.t) (cardId : string)
         (line : jstring) : list StateManager.t * list Effect :=
  match sms with
  | [] => ([], [])
  | sm :: rest =>
      match appendToBoard sm (StateManager.state sm) cardId line with
      | Some updated => (StateManager.setState sm updated :: rest, [SetState k])
      | None =>
          let (rest', e) := appendLoop (S k) rest cardId line in
          (sm :: rest', e)
      end
  end.

Definition appendSessionToMarkdown (cardId : option string)
           (start end_ duration : Z) : M unit :=
  match cardId with
  | Some c =>
      if truthy cardId then
        fun w =>
          let line := LogLine.line (utcOffset w) start end_ duration in
          let (sms, e) := appendLoop 0 (Plugin.stateManagers (plugin w)) c line in
          (tt, w_effects (effects w ++ e)
                 (w_plugin (Plugin.mk sms (Plugin.settings (plugin w))) w))
      else ret tt
  | None => ret tt
  end.

(* ================================================================== *)
(** * The timer state machine                                          *)
(* ================================================================== *)

Definition reset (mode : TimerMode) (cardId : option string)
           (resetAutoRound : bool) : M unit :=
  assign (set_state (TimerState.mk false mode 0 0 cardId)) ;;
  when resetAutoRound (assign (set_currentAutoRound 0)) ;;
  emit ev_change.

Definition stopTimer : M unit :=
  running <- read_state TimerState.running ;;
  if negb running then ret tt
  else
    now <- Date_now ;;
    assign_state (fun s => st_elapsed (TimerState.elapsed s + (now - TimerState.start s)) s) ;;
    assign_state (st_running false) ;;
    emit ev_change.

Definition resumeTimer : M unit :=
  running <- read_state TimerState.running ;;
  if running then ret tt
  else
    assign_state (st_running true) ;;
    now <- Date_now ;;
    assign_state (st_start now) ;;
    emit ev_start ;;
    emit ev_change.

Definition start (mode : TimerMode) (cardId : option string) : M unit :=
  if negb (truthy cardId) then notice SelectACard
  else
    running <- read_state TimerState.running ;;
    if running then ret tt
    else
      applyTimerSettingsForCard cardId ;;
      when (mode_eqb mode pomodoro || mode_eqb mode stopwatch)
           (assign (set_lastWorkMode mode) ;; assign (set_lastWorkCardId cardId)) ;;
      currentAutoRound_ <- read currentAutoRound ;;
      autoRounds_ <- read autoRounds ;;
      when (mode_eqb mode pomodoro && (currentAutoRound_ =? 0) && (autoRounds_ =? 0))
           (assign (set_currentAutoRound 0)) ;;
      assign_state (st_mode mode) ;;
      assign_state (st_targetCardId cardId) ;;
      assign_state (st_running true) ;;
      now <- Date_now ;;
      assign_state (st_start now) ;;
      start_ <- read_state TimerState.start ;;
      assign (set_currentSessionStart start_) ;;
      emit ev_start ;;
      emit ev_change.

Definition skipBreak : M unit :=
  running <- read_state TimerState.running ;;
  mode <- read_state TimerState.mode ;;
  if negb running || negb (mode_eqb mode break) then ret tt
  else
    stopTimer ;;
    targetMode <- read lastWorkMode ;;
    targetCardId <- read lastWorkCardId ;;
    autoRounds_ <- read autoRounds ;;
    let shouldResetAutoRound := autoRounds_ =? 0 in
    reset targetMode targetCardId shouldResetAutoRound ;;
    emit ev_change ;;
    notice BreakSkipped ;;
    autoRounds_ <- read autoRounds ;;
    if 0 <? autoRounds_ then
      currentAutoRound_ <- read currentAutoRound ;;
      if currentAutoRound_ <? autoRounds_
      then setTimeout (StartOnCard targetCardId)
      else setTimeout ClearAutoRound
    else ret tt.

(** The closure [finalizeSession] of [stop]. *)
Definition finalizeSession : M unit :=
  end_ <- Date_now ;;
  currentSessionStart_ <- read currentSessionStart ;;
  let duration := end_ - currentSessionStart_ in
  targetCardId <- read_state TimerState.targetCardId ;;
  cardTitle <- getCardTitle targetCardId ;;
  mode <- read_state TimerState.mode ;;
  assign (fun m => set_logs (logs m ++ [FocusSession.mk targetCardId cardTitle mode
                                           currentSessionStart_ end_ duration]) m) ;;
  appendSessionToMarkdown targetCardId currentSessionStart_ end_ duration ;;
  emit ev_log ;;
  autoRounds_ <- read autoRounds ;;
  let shouldResetAutoRound := autoRounds_ =? 0 in
  mode <- read_state TimerState.mode ;;
  targetCardId <- read_state TimerState.targetCardId ;;
  reset mode targetCardId shouldResetAutoRound ;;
  emit ev_change.

Definition stop (askReason : bool) : M unit :=
  running <- read_state TimerState.running ;;
  if negb running then ret tt
  else
    currentTime <- Date_now ;;
    currentSessionStart_ <- read currentSessionStart ;;
    let runningDuration := currentTime - currentSessionStart_ in
    let oneMinuteInMs := 60 * 1000 in
    if runningDuration <? oneMinuteInMs then
      stopTimer ;;
      autoRounds_ <- read autoRounds ;;
      let shouldResetAutoRound := autoRounds_ =? 0 in
      mode <- read_state TimerState.mode ;;
      targetCardId <- read_state TimerState.targetCardId ;;
      reset mode targetCardId shouldResetAutoRound ;;
      emit ev_change ;;
      notice TooShortToRecord
    else
      stopTimer ;;
      if negb askReason then finalizeSession
      else openStopReasonModal.

(** The two ways the stop-reason prompt ends: a reason is chosen, or the
    prompt is closed without one. *)
Definition promptSelect (reason : jstring) : M unit :=
  closePrompt ;;
  emit ev_stop ;;
  notice (TimerStopped reason) ;;
  finalizeSession.

Definition promptCancel : M unit :=
  closePrompt ;;
  resumeTimer.

Definition completePomodoro : M unit :=
  stop false ;;
  playEndSound ;;
  assign (fun m => set_pomodoroCount (pomodoroCount m + 1) m) ;;
  assign (fun m => set_currentAutoRound (currentAutoRound m + 1) m) ;;
  pomodoroCount_ <- read pomodoroCount ;;
  longBreakInterval_ <- read longBreakInterval ;;
  let isLong := rem pomodoroCount_ longBreakInterval_ =? 0 in
  longBreakMs_ <- read longBreakMs ;;
  shortBreakMs_ <- read shortBreakMs ;;
  assign (set_breakDurationMs (if isLong then longBreakMs_ else shortBreakMs_)) ;;
  targetCardId <- read_state TimerState.targetCardId ;;
  start break targetCardId.

Definition checkAndStartNextRound : M unit :=
  autoRounds_ <- read autoRounds ;;
  currentAutoRound_ <- read currentAutoRound ;;
  if (0 <? autoRounds_) && (currentAutoRound_ <? autoRounds_) then
    setTimeout StartOnLastWorkCard
  else if (0 <? autoRounds_) && (autoRounds_ <=? currentAutoRound_) then
    assign (set_currentAutoRound 0) ;;
    notice (CompletedRounds autoRounds_)
  else ret tt.

Definition tick : M unit :=
  running <- read_state TimerState.running ;;
  if negb running then ret tt
  else
    emit ev_tick ;;
    mode <- read_state TimerState.mode ;;
    when (mode_eqb mode pomodoro)
         (now <- Date_now ;;
          start_ <- read_state TimerState.start ;;
          elapsed_ <- read_state TimerState.elapsed ;;
          pomodoroDefault_ <- read pomodoroDefault ;;
          let spent := now - start_ + elapsed_ in
          when (pomodoroDefault_ <=? spent) completePomodoro) ;;
    mode <- read_state TimerState.mode ;;
    when (mode_eqb mode break)
         (now <- Date_now ;;
          start_ <- read_state TimerState.start ;;
          elapsed_ <- read_state TimerState.elapsed ;;
          breakDurationMs_ <- read breakDurationMs ;;
          let spent := now - start_ + elapsed_ in
          when (breakDurationMs_ <=? spent)
               (stop false ;;
                notice BreakOver ;;
                playEndSound ;;
                checkAndStartNextRound)).

(** A [setTimeout] callback when it runs. *)
Definition run (d : Deferred) : M unit :=
  match d with
  | StartOnLastWorkCard =>
      lastWorkCardId_ <- read lastWorkCardId ;;
      start pomodoro lastWorkCardId_ ;;
      currentAutoRound_ <- read currentAutoRound ;;
      autoRounds_ <- read autoRounds ;;
      notice (AutoStartingPomodoro (currentAutoRound_ + 1) autoRounds_)
  | StartOnCard targetCardId =>
      start pomodoro targetCardId ;;
      currentAutoRound_ <- read currentAutoRound ;;
      autoRounds_ <- read autoRounds ;;
      notice (AutoStartingPomodoro (currentAutoRound_ + 1) autoRounds_)
  | ClearAutoRound =>
      assign (set_currentAutoRound 0) ;;
      autoRounds_ <- read autoRounds ;;
      notice (CompletedRounds autoRounds_)
  end.

(** The oldest pending timeout fires. *)
Definition fireTimeout : M unit :=
  fun w =>
    match timeouts w with
    | [] => (tt, w)
    | d :: rest => run d (w_timeouts rest w)
    end.

Definition toggle (mode : TimerMode) (cardId : option string) : M unit :=
  running <- read_state TimerState.running ;;
  if running then
    targetCardId <- read_state TimerState.targetCardId ;;
    if negb (truthy cardId) || same_id cardId targetCardId then stop true
    else
      now <- Date_now ;;
      currentSessionStart_ <- read currentSessionStart ;;
      let duration := now - currentSessionStart_ in
      cardTitle <- getCardTitle targetCardId ;;
      mode_ <- read_state TimerState.mode ;;
      assign (fun m => set_logs (logs m ++ [FocusSession.mk targetCardId cardTitle mode_
                                               currentSessionStart_ now duration]) m) ;;
      appendSessionToMarkdown targetCardId currentSessionStart_ now duration ;;
      emit ev_log ;;
      assign_state (st_targetCardId cardId) ;;
      mode_ <- read_state TimerState.mode ;;
      when (mode_eqb mode_ pomodoro || mode_eqb mode_ stopwatch)
           (assign (set_lastWorkCardId cardId)) ;;
      assign (set_currentSessionStart now) ;;
      emit ev_change
  else start mode cardId.

Definition isRunning (mode : option TimerMode) (cardId : option string) : M bool :=
  s <- read state ;;
  if negb (TimerState.running s) then ret false
  else
    match mode with
    | Some m => if negb (mode_eqb (TimerState.mode s) m) then ret false
                else if truthy cardId && negb (same_id (TimerState.targetCardId s) cardId)
                     then ret false else ret (TimerState.running s)
    | None => if truthy cardId && negb (same_id (TimerState.targetCardId s) cardId)
              then ret false else ret (TimerState.running s)
    end.

Definition getElapsed : M Z :=
  s <- read state ;;
  if negb (TimerState.running s) then ret (TimerState.elapsed s)
  else now <- Date_now ;; ret (now - TimerState.start s + TimerState.elapsed s).

Definition getRemaining : M Z :=
  mode <- read_state TimerState.mode ;;
  match mode with
  | pomodoro =>
      d <- read pomodoroDefault ;; e <- getElapsed ;;
      let remaining := d - e in ret (if 0 <? remaining then remaining else 0)
  | break =>
      d <- read breakDurationMs ;; e <- getElapsed ;;
      let remaining := d - e in ret (if 0 <? remaining then remaining else 0)
  | stopwatch => ret 0
  end.

(* ================================================================== *)
(** * The session-log store                                            *)
(* ================================================================== *)

(** The innermost loop body of [extractItemLogsRecursive]: a line of card
    [it] that stands for a session is pushed unless a session with the
    same start and card id is already in the log. *)
Definition addLine (utcOffset : Z) (it : Item) (logs : list FocusSession.t)
           (ln : jstring) : list FocusSession.t :=
  match LogLine.session_of_line utcOffset it ln with
  | Some s =>
      if existsb (fun l => (FocusSession.start l =? FocusSession.start s)
                           && same_id (FocusSession.cardId l) (Some (Item.id it))) logs
      then logs
      else logs ++ [s]
  | None => logs
  end.

(** The lines of a card below its first line. *)
Definition logLines (it : Item) : list jstring :=
  slice1 (split_lines (Item.titleRaw it)).

(** One iteration of the outer loop of [extractItemLogsRecursive]: the lines
    of the card, then its children. *)
Fixpoint extractItem (utcOffset : Z) (it : Item) (logs : list FocusSession.t)
  : list FocusSession.t :=
  match it with
  | mkItem _ _ _ ch =>
      let logs1 := fold_left (addLine utcOffset it) (logLines it) logs in
      (fix among (l : list Item) (acc : list FocusSession.t) :=
         match l with
         | [] => acc
         | child :: rest => among rest (extractItem utcOffset child acc)
         end) ch logs1
  end.

Definition extractItemLogsRecursive (utcOffset : Z) (items : list Item)
           (logs : list FocusSession.t) : list FocusSession.t :=
  fold_left (fun acc it => extractItem utcOffset it acc) items logs.

Definition parseBoard (utcOffset : Z) (logs : list FocusSession.t) (sm : StateManager.t) :=
  fold_left (fun acc lane => extractItemLogsRecursive utcOffset (Lane.children lane) acc)
            (Board.children (StateManager.state sm)) logs.

Definition parseLogsFromMarkdown : M unit :=
  fun w =>
    (tt, w_this (set_logs (fold_left (parseBoard (utcOffset w))
                                     (Plugin.stateManagers (plugin w))
                                     (logs (this w)))
                          (this w)) w).

Definition ensureMarkdownLogs : M unit :=
  p <- the_plugin ;;
  let size := Z.of_nat (List.length (Plugin.stateManagers p)) in
  markdownParsed_ <- read markdownParsed ;;
  lastParsedSmCount_ <- read lastParsedSmCount ;;
  if negb markdownParsed_ || negb (size =? lastParsedSmCount_) then
    assign (set_logs []) ;;
    parseLogsFromMarkdown ;;
    assign (set_markdownParsed true) ;;
    assign (set_lastParsedSmCount size)
  else ret tt.

Definition forceReparseLogs : M unit :=
  assign (set_markdownParsed false) ;;
  assign (set_lastParsedSmCount 0) ;;
  ensureMarkdownLogs.

Definition getTotalFocused (cardId : option string) : M Z :=
  ensureMarkdownLogs ;;
  if negb (truthy cardId) then ret 0
  else
    logs_ <- read logs ;;
    ret (fold_left (fun sum l => sum + FocusSession.duration l)
                   (filter (fun l => same_id (FocusSession.cardId l) cardId) logs_) 0).

(** [getLogsForDate(date)], the date given as a timestamp: the sessions
    that start on its local calendar day. *)
Definition getLogsForDate (date : Z) : M (list FocusSession.t) :=
  ensureMarkdownLogs ;;
  fun w =>
    let off := utcOffset w * Moment.ms_per_minute in
    let dayStart := (date + off) / Moment.ms_per_day * Moment.ms_per_day - off in
    let dayEnd := dayStart + 24 * 60 * 60 * 1000 in
    (filter (fun l => (dayStart <=? FocusSession.start l) && (FocusSession.start l <? dayEnd))
            (logs (this w)), w).

(** ** The manager as the constructor leaves it *)

Definition newManager : Manager :=
  mkManager (TimerState.mk false stopwatch 0 0 None) [] 0 false 0
            (25 * 60 * 1000) (5 * 60 * 1000) 0
            (5 * 60 * 1000) (15 * 60 * 1000) 4 0 pomodoro None 0.

Definition newWorld (p : Plugin.t) (now utcOffset : Z) : World :=
  exec updateSettings (mkWorld newManager p now utcOffset [] [] 0).

(* ================================================================== *)
(** * Vocabulary of the statements                                     *)
(* ================================================================== *)

(** The modes [start] records as the last work mode. *)
Definition is_work (mode : TimerMode) : bool :=
  mode_eqb mode pomodoro || mode_eqb mode stopwatch.

(** What [appendSessionToMarkdown] makes of the plugin, and the [setState]
    call it issues. *)
Definition written (c : option string) (a b d tz : Z) (p : Plugin.t)
  : Plugin.t * list Effect :=
  match c with
  | Some id =>
      if truthy c then
        let (sms, e) := appendLoop 0 (Plugin.stateManagers p) id (LogLine.line tz a b d) in
        (Plugin.mk sms (Plugin.settings p), e)
      else (p, [])
  | None => (p, [])
  end.

(** The pair that the duplicate test of the log store compares. *)
Definition session_key (s : FocusSession.t) : Z * option string :=
  (FocusSession.start s, FocusSession.cardId s).

(** The log rebuilt from the documents alone. *)
Definition parsed (tz : Z) (sms : list StateManager.t) : list FocusSession.t :=
  fold_left (parseBoard tz) sms [].

Definition work_mode (s : FocusSession.t) : Prop :=
  FocusSession.mode s = pomodoro \/ FocusSession.mode s = stopwatch.

(** Local calendar day and year of a timestamp, and a timestamp cut to
    the minute. *)
Definition local_day (tz t : Z) : Z := Moment.local_ms tz t / Moment.ms_per_day.
Definition local_year (tz t : Z) : Z :=
  fst (fst (Moment.civil_from_days (local_day tz t))).
Definition minute_floor (t : Z) : Z := t / 60000 * 60000.

(** A method only adds effects, all of them satisfying [P]. *)
Definition emits (P : Effect -> Prop) {A} (m : M A) : Prop :=
  forall w, exists es, effects (exec m w) = effects w ++ es /\ Forall P es.

Definition not_tick (e : Effect) : Prop := e <> Emit ev_tick.

Definition digit (x : Z) : Prop := is_digit x = true.

Definition decimal_step (acc c : Z) : Z := 10 * acc + (c - 48).

Definition not_tomato_head (x : Z) : Prop := x <> 63743.

(** Month and day of a day of the year that starts on 1 March: the month
    maps back, the day exists in the month (29 February only as the last
    day of a 366-day year), and January and February are the months after
    day 305. *)
Definition month_day_ok (doy : Z) : bool :=
  let mp := (5 * doy + 2) / 153 in
  let d := doy - (153 * mp + 2) / 5 + 1 in
  let m := if mp <? 10 then mp + 3 else mp - 9 in
  ((m + 9) mod 12 =? mp) && (1 <=? m) && (m <=? 12) && (1 <=? d)
  && (d <=? (if m =? 2 then (if doy =? 365 then 29 else 28)
             else if (m =? 4) || (m =? 6) || (m =? 9) || (m =? 11) then 30 else 31)).

Fixpoint all_from (f : Z -> bool) (lo : Z) (n : nat) : bool :=
  match n with
  | O => true
  | S k => if f lo then all_from f (lo + 1) k else false
  end.

(** ** Scenarios *)

(** Modelled from the spec: [StateManager.updateItemContent] is not among
    the sources; of the collaborator the spec says "given a card id and new
    raw body, produce an updated card". The manager takes it as a field of
    the state manager; in the scenarios it is this function, which replaces
    the raw body and keeps the rest of the card. *)
Definition rewriteBody (it : Item) (newContent : jstring) : Item :=
  mkItem (Item.id it) (Item.title it) newContent (Item.children it).

(** A card whose title and body are its id. *)
Definition card (id : string) : Item := mkItem id (str id) (str id) [].

(** A card with a body of several lines. *)
Definition card_with (id : string) (body : jstring) : Item := mkItem id (str id) body [].

Definition boardAB : StateManager.t :=
  StateManager.mk (Board.mk [Lane.mk "todo" [card "A"; card "B"]])
                  (fun _ => None) rewriteBody.

Definition boardX : StateManager.t :=
  StateManager.mk (Board.mk [Lane.mk "inbox" [card "X"]]) (fun _ => None) rewriteBody.

(** A method called when the wall clock shows [now]. *)
Definition at_ {A} (now : Z) (m : M A) : M A := fun w => m (w_clock now w).

(** A manager just constructed over the given boards, with no settings
    stored, in UTC. *)
Definition fresh (sms : list StateManager.t) : World :=
  newWorld (Plugin.mk sms (fun _ => None)) 0 0.

(** A pomodoro on card A started at 0 has run its 25 minutes and the tick
    has turned it into a break. *)
Definition w_break : World :=
  exec (at_ 1500000 tick) (exec (at_ 0 (start pomodoro (Some "A"%string))) (fresh [boardAB])).

(** The same with two automatic rounds configured. *)
Definition twoRounds (key : string) : option Z :=
  if String.eqb key "timer-auto-rounds" then Some 2 else None.

Definition w_break_auto : World :=
  exec (at_ 1500000 tick)
    (exec (at_ 0 (start pomodoro (Some "A"%string)))
       (newWorld (Plugin.mk [boardAB] twoRounds) 0 0)).

(** A stopwatch on card A, started at 0, 30 seconds later. *)
Definition w_short : World :=
  w_clock 30000 (exec (at_ 0 (start stopwatch (Some "A"%string))) (fresh [boardAB])).

(** A pomodoro on card A, started at 0, stopped by hand after 90 seconds:
    the stop-reason prompt is open and the clock is paused. *)
Definition w_prompt : World :=
  exec (at_ 90000 (stop true)) (exec (at_ 0 (start pomodoro (Some "A"%string))) (fresh [boardAB])).

(** A pomodoro on card A, started at 0, 25 minutes later and not yet
    ticked. *)
Definition w_due : World :=
  w_clock 1500000 (exec (at_ 0 (start pomodoro (Some "A"%string))) (fresh [boardAB])).

(** Two boards are open, card A is on the second; a stopwatch on A,
    started at 0, two minutes later. *)
Definition w_two : World :=
  w_clock 120000 (exec (at_ 0 (start stopwatch (Some "A"%string))) (fresh [boardX; boardAB])).

(** One board whose card A carries a log line that states 999 minutes for
    the 25 minutes between 10:00 and 10:25. *)
Definition boardInconsistent : StateManager.t :=
  StateManager.mk
    (Board.mk [Lane.mk "todo"
       [card_with "A" (str "A" ++ 10 :: str "++ 2025-07-10 10:00 - 10:25 (999 m)")]])
    (fun _ => None) rewriteBody.

(* ================================================================== *)
(** * Running the methods                                              *)
(* ================================================================== *)

Lemma exec_bind {A B} (m : M A) (k : A -> M B) w :
  exec (bind m k) w = exec (k (eval m w)) (exec m w).
Proof. unfold exec, eval, bind. destruct (m w); reflexivity. Qed.

Lemma bind_run {A B} (m : M A) (k : A -> M B) w a w' :
  m w = (a, w') -> bind m k w = k a w'.
Proof. unfold bind. intros ->. reflexivity. Qed.

(** Unfolding the monad, the field assignments and the three smallest
    methods; the arithmetic of the model is left folded. *)
Ltac msimpl :=
  cbv beta iota zeta delta
    [bind ret exec read assign read_state assign_state the_plugin Date_now
     effect emit notice setTimeout when playEndSound openStopReasonModal closePrompt
     set_state set_logs set_currentSessionStart set_markdownParsed set_lastParsedSmCount
     set_pomodoroDefault set_breakDurationMs set_pomodoroCount set_shortBreakMs
     set_longBreakMs set_longBreakInterval set_autoRounds set_lastWorkMode
     set_lastWorkCardId set_currentAutoRound
     st_running st_mode st_start st_elapsed st_targetCardId
     w_this w_plugin w_clock w_effects w_timeouts w_prompts
     this plugin clock utcOffset effects timeouts prompts
     state logs currentSessionStart markdownParsed lastParsedSmCount pomodoroDefault
     breakDurationMs pomodoroCount shortBreakMs longBreakMs longBreakInterval autoRounds
     lastWorkMode lastWorkCardId currentAutoRound
     TimerState.running TimerState.mode TimerState.start TimerState.elapsed
     TimerState.targetCardId
     snd negb andb orb mode_eqb
     reset stopTimer resumeTimer].

Ltac tidy := rewrite <- ?app_assoc; cbn [app].

Ltac open_world w :=
  destruct w as [[[?r ?md ?st ?el ?tg] ?lg ?css ?mp ?lp ?pd ?bd ?pc ?sb ?lb ?li ?ar ?lwm ?lwc ?car]
                   ?p ?c ?tz ?eff ?tos ?pr].

(** ** Settings are the only thing the duration resolver touches *)

Lemma updateSettings_frame w :
  exists pd sb lb li ar,
    updateSettings w =
    (tt, w_this (set_autoRounds ar (set_longBreakInterval li (set_longBreakMs lb
           (set_shortBreakMs sb (set_pomodoroDefault pd (this w)))))) w).
Proof.
  open_world w. unfold updateSettings, bind, the_plugin. cbn.
  destruct (is_positive _); cbn; do 5 eexists; reflexivity.
Qed.

Lemma resolve_run cardId key w :
  resolveTimerSettingForCard cardId key w = (eval (resolveTimerSettingForCard cardId key) w, w).
Proof.
  unfold resolveTimerSettingForCard, eval. destruct cardId; [|reflexivity].
  destruct (truthy _); reflexivity.
Qed.

Lemma applyTimerSettings_frame cardId w :
  exists pd sb lb li ar,
    applyTimerSettingsForCard cardId w =
    (tt, w_this (set_autoRounds ar (set_longBreakInterval li (set_longBreakMs lb
           (set_shortBreakMs sb (set_pomodoroDefault pd (this w)))))) w).
Proof.
  unfold applyTimerSettingsForCard.
  destruct (negb (truthy cardId)); [apply updateSettings_frame|].
  unfold bind.
  rewrite (resolve_run cardId "timer-pomodoro").
  rewrite (resolve_run cardId "timer-short-break").
  rewrite (resolve_run cardId "timer-long-break").
  rewrite (resolve_run cardId "timer-long-break-interval").
  rewrite (resolve_run cardId "timer-auto-rounds").
  open_world w. cbn.
  destruct (is_positive (eval (resolveTimerSettingForCard cardId "timer-pomodoro") _));
  destruct (is_positive (eval (resolveTimerSettingForCard cardId "timer-short-break") _));
  destruct (is_positive (eval (resolveTimerSettingForCard cardId "timer-long-break") _));
  destruct (is_positive (eval (resolveTimerSettingForCard cardId "timer-long-break-interval") _));
  destruct (eval (resolveTimerSettingForCard cardId "timer-auto-rounds") _) as [n|];
  try destruct (0 <=? n); cbn; do 5 eexists; reflexivity.
Qed.

Lemma getCardTitle_run c w : getCardTitle c w = (eval (getCardTitle c) w, w).
Proof.
  unfold getCardTitle, eval. destruct c; [|reflexivity].
  destruct (truthy _); reflexivity.
Qed.

Lemma append_run c a b d w :
  appendSessionToMarkdown c a b d w =
  (tt, w_effects (effects w ++ snd (written c a b d (utcOffset w) (plugin w)))
         (w_plugin (fst (written c a b d (utcOffset w) (plugin w))) w)).
Proof.
  unfold appendSessionToMarkdown, written.
  assert (Hid : ret (A:=unit) tt w = (tt, w_effects (effects w ++ []) (w_plugin (plugin w) w))).
  { rewrite app_nil_r. destruct w. reflexivity. }
  destruct c as [c|]; [|exact Hid].
  destruct (truthy _); [|exact Hid].
  destruct (appendLoop _ _ _ _) as [sms e]. reflexivity.
Qed.

(** [appendToBoard] returns a board for every board it is given, so the
    loop always ends at the first state manager: that one receives
    [setState], the others are never looked at. *)
Lemma appendLoop_first k sm rest cardId line :
  appendLoop k (sm :: rest) cardId line =
  (StateManager.setState sm
     (Board.mk (traverseLanes sm cardId line (Board.children (StateManager.state sm))))
   :: rest,
   [SetState k]).
Proof. reflexivity. Qed.

(* ================================================================== *)
(** * start                                                            *)
(* ================================================================== *)

Lemma start_runs mode cardId w :
  truthy cardId = true ->
  TimerState.running (state (this w)) = false ->
  exists pd sb lb li ar,
    start mode cardId w =
    (tt, w_effects (effects w ++ [Emit ev_start; Emit ev_change])
           (w_this (mkManager
                      (TimerState.mk true mode (clock w)
                                     (TimerState.elapsed (state (this w))) cardId)
                      (logs (this w)) (clock w) (markdownParsed (this w))
                      (lastParsedSmCount (this w)) pd (breakDurationMs (this w))
                      (pomodoroCount (this w)) sb lb li ar
                      (if is_work mode then mode else lastWorkMode (this w))
                      (if is_work mode then cardId else lastWorkCardId (this w))
                      (currentAutoRound (this w))) w)).
Proof.
  intros Ht Hr. unfold start. rewrite Ht. cbn [negb].
  destruct (applyTimerSettings_frame cardId w) as (pd & sb & lb & li & ar & E).
  exists pd, sb, lb, li, ar.
  erewrite bind_run by reflexivity. cbv beta. rewrite Hr.
  erewrite bind_run by exact E. cbv beta.
  clear E Hr. open_world w. unfold is_work.
  destruct mode; msimpl; tidy; try reflexivity.
  destruct (Z.eqb_spec car 0); destruct (ar =? 0); subst; msimpl; tidy; reflexivity.
Qed.



(* ================================================================== *)
(** * stop                                                             *)
(* ================================================================== *)

(** C3. A [stop()] while running, less than 60000 ms after
    [currentSessionStart], appends nothing to the log, leaves every
    document as it is (no [setState] either), opens no prompt, and resets
    the state to idle with the same mode and target card; the auto-round
    counter is kept unless [autoRounds] is 0, in which case it is zeroed. *)
Theorem stop_short askReason w :
  TimerState.running (state (this w)) = true ->
  clock w - currentSessionStart (this w) < 60000 ->
  let w' := exec (stop askReason) w in
  logs (this w') = logs (this w) /\
  plugin w' = plugin w /\
  prompts w' = prompts w /\
  effects w' = effects w ++ [Emit ev_change; Emit ev_change; Emit ev_change;
                             Notice TooShortToRecord] /\
  state (this w') = TimerState.mk false (TimerState.mode (state (this w))) 0 0
                      (TimerState.targetCardId (state (this w))) /\
  currentAutoRound (this w') =
    (if autoRounds (this w) =? 0 then 0 else currentAutoRound (this w)).
Proof.
  open_world w. cbn. intros -> H.
  unfold stop. msimpl. change (60 * 1000) with 60000.
  destruct (Z.ltb_spec (c - css) 60000); [|lia].
  destruct (ar =? 0); msimpl; tidy; repeat split; reflexivity.
Qed.

Lemma stop_short_witness :
  TimerState.running (state (this w_short)) = true /\
  clock w_short - currentSessionStart (this w_short) < 60000 /\
  logs (this (exec (stop true) w_short)) = logs (this w_short).
Proof.
  split; [reflexivity|]. split; [reflexivity|].
  exact (proj1 (stop_short true w_short eq_refl eq_refl)).
Defined.

Lemma stop_false_frame w :
  TimerState.running (state (this w)) = true ->
  exists lg car pl eff,
    stop false w =
    (tt, mkWorld (set_currentAutoRound car (set_logs lg
                   (set_state (TimerState.mk false (TimerState.mode (state (this w))) 0 0
                                 (TimerState.targetCardId (state (this w)))) (this w))))
                 pl (clock w) (utcOffset w) eff (timeouts w) (prompts w)).
Proof.
  open_world w. cbn. intros ->. unfold stop. msimpl.
  destruct (c - css <? _).
  - destruct (ar =? 0); msimpl; do 4 eexists; reflexivity.
  - unfold finalizeSession. msimpl. rewrite getCardTitle_run. msimpl.
    rewrite append_run. msimpl.
    destruct (ar =? 0); msimpl; do 4 eexists; reflexivity.
Qed.

(* ================================================================== *)
(** * skipBreak                                                        *)
(* ================================================================== *)

(** C1 (as amended). [skipBreak()] on a running break leaves the state
    machine idle (not running, start and elapsed 0) with mode
    [lastWorkMode] and target [lastWorkCardId], logs no session, touches no
    document, and keeps [currentAutoRound] unless [autoRounds] is 0 (then
    it is zeroed); when [autoRounds > 0] it schedules one callback: the
    start of a pomodoro on [lastWorkCardId] if rounds remain, else the
    reset of the round counter. *)
Theorem skipBreak_spec w :
  TimerState.running (state (this w)) = true ->
  TimerState.mode (state (this w)) = break ->
  let w' := exec skipBreak w in
  state (this w') = TimerState.mk false (lastWorkMode (this w)) 0 0 (lastWorkCardId (this w)) /\
  logs (this w') = logs (this w) /\
  plugin w' = plugin w /\
  currentAutoRound (this w') =
    (if autoRounds (this w) =? 0 then 0 else currentAutoRound (this w)) /\
  timeouts w' = timeouts w ++
    (if 0 <? autoRounds (this w) then
       [if currentAutoRound (this w) <? autoRounds (this w)
        then StartOnCard (lastWorkCardId (this w)) else ClearAutoRound]
     else []) /\
  effects w' = effects w ++ [Emit ev_change; Emit ev_change; Emit ev_change;
                             Notice BreakSkipped].
Proof.
  open_world w. cbn. intros -> ->.
  unfold skipBreak. msimpl.
  destruct (Z.eqb_spec ar 0) as [->|Hne]; msimpl.
  - cbn. tidy. rewrite app_nil_r. repeat split; reflexivity.
  - destruct (0 <? ar); msimpl; [destruct (car <? ar); msimpl|]; tidy;
      rewrite ?app_nil_r; repeat split; reflexivity.
Qed.

Lemma skipBreak_spec_witness :
  TimerState.running (state (this w_break)) = true /\
  TimerState.mode (state (this w_break)) = break /\
  state (this (exec skipBreak w_break)) = TimerState.mk false pomodoro 0 0 (Some "A"%string).
Proof.
  split; [reflexivity|]. split; [reflexivity|].
  exact (proj1 (skipBreak_spec w_break eq_refl eq_refl)).
Defined.

(** C1, the claim as stated fails: a pomodoro on card A auto-completes
    into a break; [skipBreak()] one minute into the break leaves the timer
    not running (mode pomodoro, card A), with nothing scheduled. *)
Lemma skipBreak_leaves_idle :
  TimerState.running (state (this w_break)) = true /\
  TimerState.mode (state (this w_break)) = break /\
  lastWorkMode (this w_break) = pomodoro /\
  lastWorkCardId (this w_break) = Some "A"%string /\
  let w' := exec (at_ 1560000 skipBreak) w_break in
  TimerState.running (state (this w')) = false /\
  timeouts w' = [].
Proof. vm_compute. repeat split. Qed.

(** With automatic rounds configured the skipped break is also left idle;
    the timer runs again, as a pomodoro, when the scheduled callback
    fires. *)
Example skipBreak_then_callback :
  let w1 := exec (at_ 1560000 skipBreak) w_break_auto in
  TimerState.running (state (this w1)) = false /\
  timeouts w1 = [StartOnCard (Some "A"%string)] /\
  currentAutoRound (this w1) = 1 /\
  state (this (exec (at_ 1561000 fireTimeout) w1))
  = TimerState.mk true pomodoro 1561000 0 (Some "A"%string).
Proof. vm_compute. repeat split. Qed.

(** The pomodoro that completed into the break is in the log, and the
    break is a short one. *)
Example completed_pomodoro_logged :
  logs (this w_break) =
    [FocusSession.mk (Some "A"%string) (Some (str "A")) pomodoro 0 1500000 1500000] /\
  state (this w_break) = TimerState.mk true break 1500000 0 (Some "A"%string) /\
  breakDurationMs (this w_break) = shortBreakMs (this w_break).
Proof. vm_compute. repeat split. Qed.

(* ================================================================== *)
(** * tick                                                             *)
(* ================================================================== *)

Section Emits.
Variable P : Effect -> Prop.

Lemma emits_ret {A} (a : A) : emits P (ret a).
Proof. intros w. exists []. rewrite app_nil_r. split; [reflexivity | constructor]. Qed.

Lemma emits_bind {A B} (m : M A) (k : A -> M B) :
  emits P m -> (forall a, emits P (k a)) -> emits P (bind m k).
Proof.
  intros Hm Hk w. rewrite exec_bind.
  destruct (Hm w) as (e1 & E1 & F1).
  destruct (Hk (eval m w) (exec m w)) as (e2 & E2 & F2).
  exists (e1 ++ e2). rewrite E2, E1, app_assoc. split; [reflexivity|].
  apply Forall_app; split; assumption.
Qed.

Lemma emits_silent {A} (m : M A) :
  (forall w, effects (exec m w) = effects w) -> emits P m.
Proof. intros H w. exists []. rewrite app_nil_r, H. split; [reflexivity | constructor]. Qed.

Lemma emits_read {A} (f : Manager -> A) : emits P (read f).
Proof. apply emits_silent. reflexivity. Qed.

Lemma emits_read_state {A} (f : TimerState.t -> A) : emits P (read_state f).
Proof. apply emits_silent. reflexivity. Qed.

Lemma emits_assign f : emits P (assign f).
Proof. apply emits_silent. reflexivity. Qed.

Lemma emits_assign_state f : emits P (assign_state f).
Proof. apply emits_silent. reflexivity. Qed.

Lemma emits_the_plugin : emits P the_plugin.
Proof. apply emits_silent. reflexivity. Qed.

Lemma emits_Date_now : emits P Date_now.
Proof. apply emits_silent. reflexivity. Qed.

Lemma emits_setTimeout d : emits P (setTimeout d).
Proof. apply emits_silent. reflexivity. Qed.

Lemma emits_effect e : P e -> emits P (effect e).
Proof. intros H w. exists [e]. split; [reflexivity | repeat constructor; exact H]. Qed.

Lemma emits_if {A} (b : bool) (m1 m2 : M A) :
  emits P m1 -> emits P m2 -> emits P (if b then m1 else m2).
Proof. destruct b; auto. Qed.

Lemma emits_when b m : emits P m -> emits P (when b m).
Proof. intros H. unfold when. apply emits_if; [exact H | apply emits_ret]. Qed.

End Emits.

Create HintDb emits.
#[local] Hint Resolve emits_ret emits_bind emits_read emits_read_state emits_assign
  emits_assign_state emits_the_plugin emits_Date_now emits_setTimeout emits_if
  emits_when : emits.

Ltac no_tick :=
  unfold emit, notice, playEndSound; apply emits_effect; unfold not_tick; discriminate.
#[local] Hint Extern 1 (emits not_tick (emit _)) => no_tick : emits.
#[local] Hint Extern 1 (emits not_tick (notice _)) => no_tick : emits.
#[local] Hint Extern 1 (emits not_tick playEndSound) => no_tick : emits.
#[local] Hint Extern 1 (emits not_tick (effect _)) => no_tick : emits.

Lemma emits_applyTimerSettings c : emits not_tick (applyTimerSettingsForCard c).
Proof.
  apply emits_silent. intros w.
  destruct (applyTimerSettings_frame c w) as (? & ? & ? & ? & ? & E).
  unfold exec. rewrite E. reflexivity.
Qed.
#[local] Hint Resolve emits_applyTimerSettings : emits.

Lemma emits_start mode c : emits not_tick (start mode c).
Proof. unfold start. auto 20 with emits. Qed.

Lemma emits_reset mode c b : emits not_tick (reset mode c b).
Proof. unfold reset. auto 20 with emits. Qed.

Lemma emits_stopTimer : emits not_tick stopTimer.
Proof. unfold stopTimer. auto 20 with emits. Qed.
#[local] Hint Resolve emits_start emits_reset emits_stopTimer : emits.

Lemma emits_getCardTitle c : emits not_tick (getCardTitle c).
Proof.
  apply emits_silent. intros w. unfold exec. rewrite getCardTitle_run. reflexivity.
Qed.

Lemma appendLoop_effect sms : forall k c line,
  snd (appendLoop k sms c line) = [] \/ exists j, snd (appendLoop k sms c line) = [SetState j].
Proof.
  destruct sms as [|sm rest]; intros k c line; [left; reflexivity|].
  right. exists k. reflexivity.
Qed.

Lemma emits_append c a b d : emits not_tick (appendSessionToMarkdown c a b d).
Proof.
  intros w. unfold exec. rewrite append_run. cbn [snd].
  exists (snd (written c a b d (utcOffset w) (plugin w))).
  split; [destruct w; reflexivity|].
  unfold written. destruct c as [c|]; [|constructor].
  destruct (truthy _); [|constructor].
  pose proof (appendLoop_effect (Plugin.stateManagers (plugin w)) 0 c
                (LogLine.line (utcOffset w) a b d)) as H.
  destruct (appendLoop _ _ _ _) as [sms e]. cbn [snd] in *.
  destruct H as [-> | [j ->]]; repeat constructor. discriminate.
Qed.
#[local] Hint Resolve emits_getCardTitle emits_append : emits.

Lemma emits_finalizeSession : emits not_tick finalizeSession.
Proof. unfold finalizeSession. auto 30 with emits. Qed.
#[local] Hint Resolve emits_finalizeSession : emits.

Lemma emits_stop b : emits not_tick (stop b).
Proof.
  unfold stop.
  apply emits_bind; [auto with emits | intros r].
  apply emits_if; [auto with emits |].
  apply emits_bind; [auto with emits | intros now].
  apply emits_bind; [auto with emits | intros css].
  apply emits_if; [auto 30 with emits |].
  apply emits_bind; [auto with emits | intros _].
  apply emits_if; [auto with emits |].
  unfold openStopReasonModal.
  apply emits_bind; [auto with emits | intros _].
  apply emits_silent. reflexivity.
Qed.
#[local] Hint Resolve emits_stop : emits.

Lemma emits_completePomodoro : emits not_tick completePomodoro.
Proof. unfold completePomodoro. auto 30 with emits. Qed.

Lemma emits_checkAndStartNextRound : emits not_tick checkAndStartNextRound.
Proof. unfold checkAndStartNextRound. auto 30 with emits. Qed.
#[local] Hint Resolve emits_completePomodoro emits_checkAndStartNextRound : emits.

(** C8 (as amended). A tick invocation emits the [tick] event exactly when
    the timer is running: then it is the first thing the tick does and the
    only [tick] event of the invocation, whatever thresholds are crossed
    afterwards; when the timer is not running the tick does nothing at
    all. *)
Theorem tick_emits w :
  if TimerState.running (state (this w))
  then exists rest, effects (exec tick w) = effects w ++ Emit ev_tick :: rest
                    /\ Forall not_tick rest
  else exec tick w = w.
Proof.
  destruct (TimerState.running (state (this w))) eqn:R.
  - unfold tick. rewrite exec_bind. cbn [read_state read eval exec snd fst].
    rewrite R. cbn [negb]. rewrite exec_bind.
    match goal with |- context [exec (?k ?a) (exec (emit ev_tick) w)] =>
      assert (H : emits not_tick (k a)) by (cbv beta; auto 30 with emits) end.
    destruct (H (exec (emit ev_tick) w)) as (rest & E & F).
    exists rest. split; [|exact F].
    rewrite E. cbn. rewrite <- app_assoc. reflexivity.
  - unfold tick. rewrite exec_bind. cbn [read_state read eval exec snd fst].
    rewrite R. reflexivity.
Qed.

(** C8, the claim as stated fails: the periodic tick of a manager that
    exists but has no timer running emits nothing. *)
Lemma tick_silent_when_idle :
  TimerState.running (state (this (fresh [boardAB]))) = false /\
  effects (exec (at_ 1000 tick) (fresh [boardAB])) = [] /\
  ~ In (Emit ev_tick) (effects (exec (at_ 1000 tick) (fresh [boardAB]))).
Proof. vm_compute. repeat split. intros []. Qed.

(** ** The long-break cadence *)

Lemma rem_zero_iff_mod k n : 0 <= k -> (rem k n =? 0) = (k mod n =? 0).
Proof.
  intros Hk. unfold rem.
  destruct (Z.eq_dec n 0) as [->|Hn].
  - rewrite Z.mod_0_r. rewrite Z.rem_0_r_ext by reflexivity. reflexivity.
  - destruct (Z.eqb_spec (Z.rem k n) 0) as [E|E]; destruct (Z.eqb_spec (k mod n) 0) as [F|F];
      try reflexivity; exfalso.
    + apply F. apply Z.rem_divide in E; [|exact Hn]. apply Z.mod_divide; assumption.
    + apply E. apply Z.mod_divide in F; [|exact Hn]. apply Z.rem_divide; assumption.
Qed.

(** C9. When the tick finds a running pomodoro on a card at or past its
    duration, the pomodoro is completed: [pomodoroCount] becomes
    K = count + 1 >= 1 and a break starts at once on the same card whose
    length [breakDurationMs] is the long-break duration when
    K mod longBreakInterval = 0 and the short-break duration otherwise. *)
Theorem long_break_cadence w :
  TimerState.running (state (this w)) = true ->
  TimerState.mode (state (this w)) = pomodoro ->
  pomodoroDefault (this w)
    <= clock w - TimerState.start (state (this w)) + TimerState.elapsed (state (this w)) ->
  truthy (TimerState.targetCardId (state (this w))) = true ->
  0 <= pomodoroCount (this w) ->
  0 < shortBreakMs (this w) ->
  0 < longBreakMs (this w) ->
  let K := pomodoroCount (this w) + 1 in
  let N := longBreakInterval (this w) in
  let w' := exec tick w in
  pomodoroCount (this w') = K /\
  state (this w') = TimerState.mk true break (clock w) 0
                      (TimerState.targetCardId (state (this w))) /\
  breakDurationMs (this w') =
    (if K mod N =? 0 then longBreakMs (this w) else shortBreakMs (this w)).
Proof.
  open_world w. cbn. intros -> -> Hspent Htg Hpc Hsb Hlb.
  rewrite <- rem_zero_iff_mod by lia.
  unfold tick. msimpl.
  destruct (Z.leb_spec pd (c - st + el)) as [_|]; [|lia].
  unfold completePomodoro. msimpl.
  match goal with |- context [stop false ?W] =>
    destruct (stop_false_frame W eq_refl) as (lg' & car' & pl' & eff' & E); rewrite E end.
  msimpl.
  match goal with |- context [start break tg ?W] =>
    destruct (start_runs break tg W Htg eq_refl) as (pd' & sb' & lb' & li' & ar' & E');
    rewrite E' end.
  msimpl. cbn [is_work mode_eqb orb].
  replace (c - c + 0) with 0 by lia.
  destruct (rem (pc + 1) li =? 0).
  - destruct (Z.leb_spec lb 0); [lia|]. repeat split; reflexivity.
  - destruct (Z.leb_spec sb 0); [lia|]. repeat split; reflexivity.
Qed.

Lemma long_break_cadence_witness :
  TimerState.running (state (this w_due)) = true /\
  TimerState.mode (state (this w_due)) = pomodoro /\
  pomodoroDefault (this w_due)
    <= clock w_due - TimerState.start (state (this w_due))
       + TimerState.elapsed (state (this w_due)) /\
  truthy (TimerState.targetCardId (state (this w_due))) = true /\
  0 <= pomodoroCount (this w_due) /\
  0 < shortBreakMs (this w_due) /\
  0 < longBreakMs (this w_due) /\
  breakDurationMs (this (exec tick w_due)) = 300000.
Proof.
  assert (H1 : pomodoroDefault (this w_due)
               <= clock w_due - TimerState.start (state (this w_due))
                  + TimerState.elapsed (state (this w_due))) by (vm_compute; discriminate).
  assert (H2 : 0 <= pomodoroCount (this w_due)) by (vm_compute; discriminate).
  repeat (split; [first [reflexivity | assumption] |]).
  exact (proj2 (proj2 (long_break_cadence w_due eq_refl eq_refl H1 eq_refl H2 eq_refl eq_refl))).
Defined.

(** Every fourth pomodoro of the default settings earns the long break:
    three more pomodoros after the first, each followed by its break run
    to the end. *)
Example fourth_pomodoro_long_break :
  let round (t : Z) (w : World) :=
    exec (at_ (t + 1500000) tick)
      (exec (at_ t (start pomodoro (Some "A"%string)))
         (exec (at_ t tick) w)) in
  let w4 := round 5400000 (round 3600000 (round 1800000 (round 0 (fresh [boardAB])))) in
  pomodoroCount (this w4) = 4 /\
  TimerState.mode (state (this w4)) = break /\
  breakDurationMs (this w4) = 900000.
Proof. vm_compute. repeat split. Qed.

(* ================================================================== *)
(** * toggle                                                           *)
(* ================================================================== *)

(** What a card switch does to the manager: the session of the previous
    card goes to the log whatever its length, without a prompt, the state
    stays running in the same mode on the new card with the clock fields
    untouched, the session anchor moves to now, and no duration is
    resolved again. The plugin afterwards is what [appendSessionToMarkdown]
    makes of it. *)
Lemma toggle_switch mode cardId w :
  TimerState.running (state (this w)) = true ->
  truthy cardId = true ->
  same_id cardId (TimerState.targetCardId (state (this w))) = false ->
  let s := state (this w) in
  let A := TimerState.targetCardId s in
  let now := clock w in
  let anchor := currentSessionStart (this w) in
  let doc := written A anchor now (now - anchor) (utcOffset w) (plugin w) in
  let w' := exec (toggle mode cardId) w in
  logs (this w') =
    logs (this w) ++ [FocusSession.mk A (eval (getCardTitle A) w) (TimerState.mode s)
                        anchor now (now - anchor)] /\
  state (this w') = TimerState.mk true (TimerState.mode s) (TimerState.start s)
                      (TimerState.elapsed s) cardId /\
  currentSessionStart (this w') = now /\
  (pomodoroDefault (this w') = pomodoroDefault (this w) /\
   breakDurationMs (this w') = breakDurationMs (this w) /\
   shortBreakMs (this w') = shortBreakMs (this w) /\
   longBreakMs (this w') = longBreakMs (this w) /\
   longBreakInterval (this w') = longBreakInterval (this w) /\
   autoRounds (this w') = autoRounds (this w)) /\
  prompts w' = prompts w /\
  plugin w' = fst doc /\
  effects w' = effects w ++ snd doc ++ [Emit ev_log; Emit ev_change].
Proof.
  open_world w. cbn. intros -> Ht Hd.
  unfold toggle. msimpl. rewrite Ht, Hd. msimpl. rewrite getCardTitle_run. msimpl.
  rewrite append_run. msimpl.
  destruct md; msimpl; tidy; repeat split; reflexivity.
Qed.

(** When the previous card is on the board of the first state manager,
    the session line lands under it. *)
Example toggle_first_board :
  let w := w_clock 120000
             (exec (at_ 0 (start stopwatch (Some "A"%string))) (fresh [boardAB; boardX])) in
  let w' := exec (toggle stopwatch (Some "B"%string)) w in
  map StateManager.state (Plugin.stateManagers (plugin w')) =
  [Board.mk [Lane.mk "todo"
     [card_with "A" (str "A" ++ 10 :: LogLine.line 0 0 120000 120000); card "B"]];
   StateManager.state boardX].
Proof. vm_compute. reflexivity. Qed.

(** C2, the code at the failing input. Two boards are open and card A is
    on the second. With a stopwatch running on A since 0,
    [toggle('stopwatch', "B")] at 120000 logs the two minutes of A in
    memory and goes on running on B from 120000, but the only [setState]
    goes to the first board and every board is left as it was: nothing is
    appended under card A. *)
Theorem toggle_other_board_unwritten :
  let w' := exec (toggle stopwatch (Some "B"%string)) w_two in
  logs (this w') =
    [FocusSession.mk (Some "A"%string) (Some (str "A")) stopwatch 0 120000 120000] /\
  state (this w') = TimerState.mk true stopwatch 0 0 (Some "B"%string) /\
  currentSessionStart (this w') = 120000 /\
  effects w' = effects w_two ++ [SetState 0; Emit ev_log; Emit ev_change] /\
  map StateManager.state (Plugin.stateManagers (plugin w')) =
    [StateManager.state boardX; StateManager.state boardAB].
Proof. vm_compute. repeat split. Qed.

(* ================================================================== *)
(** * The session-log store                                            *)
(* ================================================================== *)

Lemma Item_induction (P : Item -> Prop) :
  (forall i t r ch, Forall P ch -> P (mkItem i t r ch)) -> forall it, P it.
Proof.
  intros H. fix IH 1. intros [i t r ch]. apply H.
  induction ch as [|c ch IHch]; constructor; [apply IH | exact IHch].
Qed.

(** A property of the log that every line keeps is kept by the whole
    walk over cards, lanes and boards. *)
Section Invariant.
Variable tz : Z.
Variable I : list FocusSession.t -> Prop.
Hypothesis addLine_keeps : forall it logs ln, I logs -> I (addLine tz it logs ln).

Lemma lines_keep it lines : forall logs, I logs -> I (fold_left (addLine tz it) lines logs).
Proof.
  induction lines as [|ln lines IH]; intros logs H; [exact H|].
  cbn [fold_left]. apply IH, addLine_keeps, H.
Qed.

Lemma extractItem_keeps : forall it logs, I logs -> I (extractItem tz it logs).
Proof.
  induction it as [i t r ch IHch] using Item_induction. intros logs H.
  cbn [extractItem].
  generalize (lines_keep (mkItem i t r ch) (logLines (mkItem i t r ch)) logs H).
  generalize (fold_left (addLine tz (mkItem i t r ch)) (logLines (mkItem i t r ch)) logs).
  induction IHch as [|c ch Hc _ IH]; intros acc Hacc; [exact Hacc|].
  apply IH, Hc, Hacc.
Qed.

Lemma extractItems_keep items : forall logs,
  I logs -> I (extractItemLogsRecursive tz items logs).
Proof.
  unfold extractItemLogsRecursive.
  induction items as [|it items IH]; intros logs H; [exact H|].
  cbn [fold_left]. apply IH, extractItem_keeps, H.
Qed.

Lemma parseBoard_keeps sm logs : I logs -> I (parseBoard tz logs sm).
Proof.
  unfold parseBoard. generalize (Board.children (StateManager.state sm)).
  intros lanes. revert logs.
  induction lanes as [|lane lanes IH]; intros logs H; [exact H|].
  cbn [fold_left]. apply IH, extractItems_keep, H.
Qed.

Lemma parse_keeps sms : forall logs, I logs -> I (fold_left (parseBoard tz) sms logs).
Proof.
  induction sms as [|sm sms IH]; intros logs H; [exact H|].
  cbn [fold_left]. apply IH, parseBoard_keeps, H.
Qed.

End Invariant.

(** What stands behind a session read from a line. *)
Lemma session_of_line_fields tz it ln s :
  LogLine.session_of_line tz it ln = Some s ->
  exists g,
    LogLine.match_ (trim ln) = Some g /\
    Moment.parse tz (LogLine.dateStr g ++ str " " ++ LogLine.startStr g)
      = Some (FocusSession.start s) /\
    Moment.parse tz (LogLine.dateStr g ++ str " " ++ LogLine.endStr g)
      = Some (FocusSession.end_ s) /\
    FocusSession.duration s = parseInt (LogLine.minsStr g) * 60000 /\
    0 < FocusSession.duration s /\
    FocusSession.start s < FocusSession.end_ s /\
    FocusSession.cardId s = Some (Item.id it) /\
    FocusSession.cardTitle s = Some (Item.title it) /\
    FocusSession.mode s = (if includes ln LogLine.TOMATO then pomodoro else stopwatch).
Proof.
  unfold LogLine.session_of_line.
  destruct (LogLine.match_ (trim ln)) as [g|]; [|discriminate].
  destruct (Moment.parse tz (LogLine.dateStr g ++ str " " ++ LogLine.startStr g))
    as [a|] eqn:Ea; [|discriminate].
  destruct (Moment.parse tz (LogLine.dateStr g ++ str " " ++ LogLine.endStr g))
    as [b|] eqn:Eb; [|discriminate].
  destruct (Z.ltb_spec 0 (parseInt (LogLine.minsStr g) * 60000)); [|discriminate].
  destruct (Z.ltb_spec a b); [|discriminate].
  cbn [andb]. intros E. inversion E; subst; clear E.
  cbn [FocusSession.start FocusSession.end_ FocusSession.duration FocusSession.cardId
       FocusSession.cardTitle FocusSession.mode].
  exists g. repeat split; try reflexivity; assumption.
Qed.

Lemma same_id_eq a b : same_id a b = true <-> a = b.
Proof.
  destruct a as [x|], b as [y|]; cbn; try (split; [discriminate | congruence]).
  - rewrite String.eqb_eq. split; congruence.
  - split; reflexivity.
Qed.

(** A line either leaves the log alone or pushes the session it stands
    for, and then no session of the log has that start and card. *)
Lemma addLine_cases tz it logs ln :
  addLine tz it logs ln = logs \/
  exists s, LogLine.session_of_line tz it ln = Some s /\
            addLine tz it logs ln = logs ++ [s] /\
            ~ In (session_key s) (map session_key logs).
Proof.
  unfold addLine.
  destruct (LogLine.session_of_line tz it ln) as [s|] eqn:E; [|left; reflexivity].
  destruct (existsb _ logs) eqn:X; [left; reflexivity|].
  right. exists s. repeat split.
  intros Hin. apply in_map_iff in Hin as (l & Hk & Hl).
  assert (existsb (fun l => (FocusSession.start l =? FocusSession.start s)
                            && same_id (FocusSession.cardId l) (Some (Item.id it))) logs = true);
    [|congruence].
  apply existsb_exists. exists l. split; [exact Hl|].
  destruct (session_of_line_fields tz it ln s E) as (g & _ & _ & _ & _ & _ & _ & Hc & _).
  unfold session_key in Hk. inversion Hk as [[Hs Hid]].
  rewrite Hs, Z.eqb_refl. cbn [andb]. apply same_id_eq. congruence.
Qed.

Lemma addLine_nodup tz it logs ln :
  NoDup (map session_key logs) -> NoDup (map session_key (addLine tz it logs ln)).
Proof.
  intros H. destruct (addLine_cases tz it logs ln) as [-> | (s & _ & -> & Hn)]; [exact H|].
  rewrite map_app. cbn [map].
  apply NoDup_app; [exact H | repeat constructor; intros [] | ].
  intros k Hk [<- | []]. exact (Hn Hk).
Qed.

Lemma addLine_modes tz it logs ln :
  Forall work_mode logs -> Forall work_mode (addLine tz it logs ln).
Proof.
  intros H. destruct (addLine_cases tz it logs ln) as [-> | (s & E & -> & _)]; [exact H|].
  apply Forall_app. split; [exact H|]. apply Forall_cons; [|apply Forall_nil].
  destruct (session_of_line_fields tz it ln s E) as (g & _ & _ & _ & _ & _ & _ & _ & _ & Hm).
  unfold work_mode. rewrite Hm. destruct (includes ln LogLine.TOMATO); auto.
Qed.

Lemma forceReparse_run w :
  forceReparseLogs w =
  (tt, w_this (set_lastParsedSmCount (Z.of_nat (List.length (Plugin.stateManagers (plugin w))))
                (set_markdownParsed true
                   (set_logs (parsed (utcOffset w) (Plugin.stateManagers (plugin w)))
                      (this w)))) w).
Proof.
  destruct w as [[s lg css mp lp pd bd pc sb lb li ar lwm lwc car] p c tz eff tos pr].
  reflexivity.
Qed.

Lemma ensure_parsed_run w :
  markdownParsed (this w) = true ->
  lastParsedSmCount (this w) = Z.of_nat (List.length (Plugin.stateManagers (plugin w))) ->
  ensureMarkdownLogs w = (tt, w).
Proof.
  destruct w as [[s lg css mp lp pd bd pc sb lb li ar lwm lwc car] p c tz eff tos pr].
  cbn. intros -> ->. unfold ensureMarkdownLogs, bind, the_plugin, read. cbn.
  rewrite Z.eqb_refl. reflexivity.
Qed.

(** C6. Whatever the manager held before, a reparse leaves in memory the
    log that is a function of the documents alone; a second reparse of the
    same documents, and every query ([getTotalFocused], [getLogsForDate])
    after it, leave the manager exactly as it is; and no two sessions of
    the log share their start and card id. *)
Theorem reparse_idempotent w :
  let w1 := exec forceReparseLogs w in
  logs (this w1) = parsed (utcOffset w) (Plugin.stateManagers (plugin w)) /\
  exec forceReparseLogs w1 = w1 /\
  (forall cardId, exec (getTotalFocused cardId) w1 = w1) /\
  (forall date, exec (getLogsForDate date) w1 = w1) /\
  NoDup (map session_key (logs (this w1))).
Proof.
  intros w1.
  assert (E1 : w1 = w_this (set_lastParsedSmCount
                              (Z.of_nat (List.length (Plugin.stateManagers (plugin w))))
                              (set_markdownParsed true
                                 (set_logs (parsed (utcOffset w) (Plugin.stateManagers (plugin w)))
                                    (this w)))) w)
    by (unfold w1, exec; rewrite forceReparse_run; reflexivity).
  clearbody w1.
  assert (Hp : markdownParsed (this w1) = true) by (subst w1; destruct w; reflexivity).
  assert (Hc : lastParsedSmCount (this w1)
               = Z.of_nat (List.length (Plugin.stateManagers (plugin w1))))
    by (subst w1; destruct w; reflexivity).
  assert (Hl : logs (this w1) = parsed (utcOffset w) (Plugin.stateManagers (plugin w)))
    by (subst w1; destruct w; reflexivity).
  split; [exact Hl|]. split; [|split; [|split]].
  - unfold exec. rewrite forceReparse_run. subst w1.
    destruct w as [[s lg css mp lp pd bd pc sb lb li ar lwm lwc car] p c tz eff tos pr].
    reflexivity.
  - intros cardId. unfold getTotalFocused. rewrite exec_bind.
    unfold exec at 2. rewrite (ensure_parsed_run w1 Hp Hc). cbn [snd].
    destruct (negb (truthy cardId)); reflexivity.
  - intros date. unfold getLogsForDate. rewrite exec_bind.
    unfold exec at 2. rewrite (ensure_parsed_run w1 Hp Hc). reflexivity.
  - rewrite Hl. unfold parsed. apply parse_keeps; [|constructor].
    intros it logs ln. apply addLine_nodup.
Qed.

(** A card that repeats a line is logged once. *)
Example repeated_line_logged_once :
  let body := str "A" ++ 10 :: str "++ 2025-07-10 10:00 - 10:25 (25 m)"
                      ++ 10 :: str "++ 2025-07-10 10:00 - 10:25 (25 m)" in
  let sm := StateManager.mk (Board.mk [Lane.mk "todo" [card_with "A" body]])
                            (fun _ => None) rewriteBody in
  List.length (logs (this (exec forceReparseLogs (fresh [sm])))) = 1%nat.
Proof. vm_compute. reflexivity. Qed.




(** ** Modes across a write and a reparse *)

Lemma includes_absent s : Forall not_tomato_head s -> includes s LogLine.TOMATO = false.
Proof.
  induction s as [|x r IH]; intros F; [reflexivity|].
  inversion F as [|? ? Hx Fr]; subst. cbn [includes]. rewrite (IH Fr).
  unfold LogLine.TOMATO. cbn [starts_with]. destruct (Z.eqb_spec 63743 x); [|reflexivity].
  exfalso. apply Hx. congruence.
Qed.

(* ================================================================== *)
(** * Decimal digits                                                   *)
(* ================================================================== *)

Lemma is_digit_of n : 0 <= n <= 9 -> is_digit (48 + n) = true.
Proof.
  intros H. unfold is_digit. apply andb_true_iff. split; apply Z.leb_le; lia.
Qed.

Lemma digits_aux_S f n acc :
  digits_aux (S f) n acc =
  if n <? 10 then (48 + n mod 10) :: acc else digits_aux f (n / 10) ((48 + n mod 10) :: acc).
Proof. reflexivity. Qed.

Lemma digits_aux_spec fuel : forall n acc,
  0 <= n < 2 ^ (Z.of_nat fuel + 1) ->
  exists ds, digits_aux (S fuel) n acc = ds ++ acc /\ Forall digit ds /\ ds <> [] /\
             (forall a, fold_left decimal_step ds a = a * 10 ^ Z.of_nat (List.length ds) + n) /\
             (forall k, (0 < k)%nat -> n < 10 ^ Z.of_nat k -> (List.length ds <= k)%nat).
Proof.
  induction fuel as [|f IH]; intros n acc Hn.
  - change (2 ^ (Z.of_nat 0 + 1)) with 2 in Hn. assert (n < 10) by lia.
    exists [48 + n]. rewrite digits_aux_S. destruct (Z.ltb_spec n 10); [|lia].
    rewrite Z.mod_small by lia.
    repeat split.
    + repeat constructor. apply is_digit_of. lia.
    + discriminate.
    + intros a. cbn [fold_left List.length]. unfold decimal_step.
      change (10 ^ Z.of_nat 1) with 10. lia.
    + intros k Hk _. cbn [List.length]. lia.
  - rewrite (digits_aux_S (S f)). destruct (Z.ltb_spec n 10) as [Hlt|Hge].
    + exists [48 + n]. rewrite Z.mod_small by lia.
      repeat split.
      * repeat constructor. apply is_digit_of. lia.
      * discriminate.
      * intros a. cbn [fold_left List.length]. unfold decimal_step.
        change (10 ^ Z.of_nat 1) with 10. lia.
      * intros k Hk _. cbn [List.length]. lia.
    + assert (Hq : 0 <= n / 10 < 2 ^ (Z.of_nat f + 1)).
      { split; [apply Z.div_pos; lia|].
        apply Z.div_lt_upper_bound; [lia|].
        replace (Z.of_nat (S f) + 1) with (Z.succ (Z.of_nat f + 1)) in Hn by lia.
        rewrite Z.pow_succ_r in Hn by lia. lia. }
      destruct (IH (n / 10) ((48 + n mod 10) :: acc) Hq) as (ds & E & F & Hne & Hv & Hl).
      exists (ds ++ [48 + n mod 10]).
      rewrite E, <- app_assoc. repeat split.
      * apply Forall_app. split; [exact F|]. repeat constructor. apply is_digit_of.
        pose proof (Z.mod_pos_bound n 10). lia.
      * destruct ds; discriminate.
      * intros a. rewrite fold_left_app, Hv. cbn [fold_left]. unfold decimal_step.
        rewrite length_app. cbn [List.length]. rewrite Nat.add_1_r, Nat2Z.inj_succ.
        rewrite Z.pow_succ_r by lia.
        pose proof (Z.div_mod n 10). lia.
      * intros k Hk Hb. rewrite length_app. cbn [List.length].
        destruct k as [|k]; [lia|]. destruct k as [|k].
        { change (10 ^ Z.of_nat 1) with 10 in Hb. lia. }
        assert (List.length ds <= S k)%nat; [|lia].
        apply Hl; [lia|].
        apply Z.div_lt_upper_bound; [lia|].
        rewrite Nat2Z.inj_succ, Z.pow_succ_r in Hb by lia. exact Hb.
Qed.

(** The digits of a number are digits, there is at least one, [parseInt]
    reads the number back, and a number below [10^k] has at most [k]. *)
Lemma digits_spec n :
  0 <= n ->
  Forall digit (digits n) /\ digits n <> [] /\ parseInt (digits n) = n /\
  (forall k, (0 < k)%nat -> n < 10 ^ Z.of_nat k -> (List.length (digits n) <= k)%nat).
Proof.
  intros Hn. unfold digits.
  assert (Hb : 0 <= n < 2 ^ (Z.of_nat (Z.to_nat (Z.log2 n)) + 1)).
  { split; [exact Hn|]. rewrite Z2Nat.id by apply Z.log2_nonneg.
    destruct (Z.eq_dec n 0) as [->|Hz]; [reflexivity|].
    replace (Z.log2 n + 1) with (Z.succ (Z.log2 n)) by lia.
    apply Z.log2_spec. lia. }
  destruct (digits_aux_spec _ n [] Hb) as (ds & E & F & Hne & Hv & Hl).
  rewrite E, app_nil_r. repeat split; try assumption.
  unfold parseInt. fold decimal_step. rewrite (Hv 0). lia.
Qed.

Lemma fold_zeros j : fold_left decimal_step (repeat 48 j) 0 = 0.
Proof. induction j as [|j IH]; [reflexivity|]. cbn. exact IH. Qed.

Lemma zeroFill_spec n k :
  (0 < k)%nat -> 0 <= n < 10 ^ Z.of_nat k ->
  List.length (Moment.zeroFill n (Z.of_nat k)) = k /\
  Forall digit (Moment.zeroFill n (Z.of_nat k)) /\
  parseInt (Moment.zeroFill n (Z.of_nat k)) = n.
Proof.
  intros Hk Hn. unfold Moment.zeroFill.
  destruct (Z.leb_spec 0 n) as [_|]; [|lia].
  rewrite Z.abs_eq by lia.
  destruct (digits_spec n (proj1 Hn)) as (F & Hne & Hp & Hl).
  specialize (Hl k Hk (proj2 Hn)).
  cbn [app]. repeat split.
  - rewrite length_app, repeat_length. lia.
  - apply Forall_app. split; [|exact F].
    apply Forall_forall. intros x Hx. apply repeat_spec in Hx. subst. reflexivity.
  - unfold parseInt in *. fold decimal_step in *. rewrite fold_left_app, fold_zeros. exact Hp.
Qed.

Lemma two_digits l :
  List.length l = 2%nat -> Forall digit l -> exists a b, l = [a; b] /\ digit a /\ digit b.
Proof.
  intros Hl F. destruct l as [|a [|b [|c l]]]; try discriminate.
  inversion F as [|? ? Ha F']; subst. inversion F' as [|? ? Hb ?]; subst.
  exists a, b. auto.
Qed.

Lemma four_digits l :
  List.length l = 4%nat -> Forall digit l ->
  exists a b c d, l = [a; b; c; d] /\ digit a /\ digit b /\ digit c /\ digit d.
Proof.
  intros Hl F. destruct l as [|a [|b [|c [|d [|e l]]]]]; try discriminate.
  inversion F as [|? ? Ha F1]; subst. inversion F1 as [|? ? Hb F2]; subst.
  inversion F2 as [|? ? Hc F3]; subst. inversion F3 as [|? ? Hd ?]; subst.
  exists a, b, c, d. auto.
Qed.

(* ================================================================== *)
(** * The written line contains no pomodoro marker                     *)
(* ================================================================== *)

Lemma digit_plain x : digit x -> not_tomato_head x.
Proof.
  unfold digit, is_digit, not_tomato_head. intros H.
  apply andb_true_iff in H as [_ H]. apply Z.leb_le in H. lia.
Qed.

Lemma digits_plain n : 0 <= n -> Forall not_tomato_head (digits n).
Proof.
  intros H. destruct (digits_spec n H) as (F & _).
  eapply Forall_impl; [|exact F]. apply digit_plain.
Qed.

Lemma zeroFill_plain n k : Forall not_tomato_head (Moment.zeroFill n k).
Proof.
  unfold Moment.zeroFill. apply Forall_app. split.
  - destruct (0 <=? n); repeat constructor. unfold not_tomato_head. discriminate.
  - apply Forall_app. split; [|apply digits_plain, Z.abs_nonneg].
    apply Forall_forall. intros x Hx. apply repeat_spec in Hx. subst.
    unfold not_tomato_head. discriminate.
Qed.

Lemma String_plain n : Forall not_tomato_head (String_ n).
Proof.
  unfold String_. destruct (Z.ltb_spec n 0).
  - constructor; [unfold not_tomato_head; discriminate | apply digits_plain; lia].
  - apply digits_plain. assumption.
Qed.

Lemma format_date_plain tz t : Forall not_tomato_head (Moment.format_date tz t).
Proof.
  unfold Moment.format_date.
  destruct (Moment.civil_from_days _) as [[y m] d].
  repeat first [ apply zeroFill_plain | apply Forall_app; split
               | apply Forall_cons; [unfold not_tomato_head; discriminate|] ].
Qed.

Lemma format_time_plain tz t : Forall not_tomato_head (Moment.format_time tz t).
Proof.
  unfold Moment.format_time.
  repeat first [ apply zeroFill_plain | apply Forall_app; split
               | apply Forall_cons; [unfold not_tomato_head; discriminate|] ].
Qed.

Lemma layout_plain dash tz a b d :
  Forall not_tomato_head dash -> Forall not_tomato_head (LogLine.layout dash tz a b d).
Proof.
  intros Hd. unfold LogLine.layout.
  apply Forall_app; split; [repeat constructor; unfold not_tomato_head; discriminate|].
  apply Forall_app; split; [apply format_date_plain|].
  apply Forall_app; split; [repeat constructor; unfold not_tomato_head; discriminate|].
  apply Forall_app; split; [apply format_time_plain|].
  apply Forall_app; split; [repeat constructor; unfold not_tomato_head; discriminate|].
  apply Forall_app; split; [exact Hd|].
  apply Forall_app; split; [repeat constructor; unfold not_tomato_head; discriminate|].
  apply Forall_app; split; [apply format_time_plain|].
  apply Forall_app; split; [repeat constructor; unfold not_tomato_head; discriminate|].
  apply Forall_app; split; [apply String_plain|].
  repeat constructor; unfold not_tomato_head; discriminate.
Qed.

Lemma line_plain tz a b d : Forall not_tomato_head (LogLine.line tz a b d).
Proof.
  apply layout_plain. unfold LogLine.DASH.
  repeat constructor; unfold not_tomato_head; discriminate.
Qed.

(** C10. The line the finalizer writes begins with "++" and is computed
    from the card, the two timestamps and the duration only, the mode of
    the session having no part in it; a session read from a line has mode
    pomodoro when the line contains the pomodoro marker and stopwatch
    otherwise, so the rebuilt log holds no break session; and a written
    line never contains the pomodoro marker, so whatever session is read
    back from one is a stopwatch session, whichever mode was written. *)
Theorem modes_across_reparse :
  (forall tz a b d, exists rest, LogLine.line tz a b d = str "++" ++ rest) /\
  (forall tz it ln s,
     LogLine.session_of_line tz it ln = Some s ->
     FocusSession.mode s = (if includes ln LogLine.TOMATO then pomodoro else stopwatch)) /\
  (forall w, Forall work_mode (logs (this (exec forceReparseLogs w)))) /\
  (forall tz a b d, includes (LogLine.line tz a b d) LogLine.TOMATO = false) /\
  (forall tz it a b d s,
     LogLine.session_of_line tz it (LogLine.line tz a b d) = Some s ->
     FocusSession.mode s = stopwatch).
Proof.
  split; [|split; [|split; [|split]]].
  - intros tz a b d. eexists. unfold LogLine.line, LogLine.layout.
    change (str "++ ") with (str "++" ++ [32]). rewrite <- !app_assoc. reflexivity.
  - intros tz it ln s E.
    destruct (session_of_line_fields tz it ln s E) as (g & _ & _ & _ & _ & _ & _ & _ & _ & Hm).
    exact Hm.
  - intros w. unfold exec. rewrite forceReparse_run.
    replace (logs (this (snd (tt, _))))
      with (parsed (utcOffset w) (Plugin.stateManagers (plugin w)))
      by (destruct w; reflexivity).
    unfold parsed. apply parse_keeps; [|constructor].
    intros it logs ln. apply addLine_modes.
  - intros tz a b d. apply includes_absent, line_plain.
  - intros tz it a b d s E.
    destruct (session_of_line_fields tz it _ s E) as (g & _ & _ & _ & _ & _ & _ & _ & _ & Hm).
    rewrite Hm, includes_absent; [reflexivity | apply line_plain].
Qed.

Lemma modes_across_reparse_witness :
  LogLine.session_of_line 0 (card "A")
    (LogLine.TOMATO ++ str " 2025-07-10 10:00 - 10:25 (25 m)")
  = Some (FocusSession.mk (Some "A"%string) (Some (str "A")) pomodoro
            1752141600000 1752143100000 1500000) /\
  FocusSession.mode (FocusSession.mk (Some "A"%string) (Some (str "A")) pomodoro
            1752141600000 1752143100000 1500000) = pomodoro.
Proof.
  split; [reflexivity|].
  exact (proj1 (proj2 modes_across_reparse) 0 (card "A")
           (LogLine.TOMATO ++ str " 2025-07-10 10:00 - 10:25 (25 m)") _ eq_refl).
Defined.

(* ================================================================== *)
(** * The grammar on a line of the written layout                      *)
(* ================================================================== *)

Lemma digit_not_space c : is_digit c = true -> is_space c = false.
Proof.
  unfold is_digit, is_space. intros H.
  apply andb_true_iff in H. destruct H as [H1 H2].
  apply Z.leb_le in H1. apply Z.leb_le in H2.
  repeat match goal with
  | |- context [?a <=? ?b] => destruct (Z.leb_spec a b); try lia
  | |- context [?a =? ?b] => destruct (Z.eqb_spec a b); try lia
  end; reflexivity.
Qed.

Lemma dash_not_space c : In c LogLine.DASH_CLASS -> is_space c = false.
Proof. cbn. intros H. repeat (destruct H as [<- | H]; [reflexivity|]). destruct H. Qed.

Lemma dash_in_class c : In c LogLine.DASH_CLASS -> existsb (Z.eqb c) LogLine.DASH_CLASS = true.
Proof. cbn. intros H. repeat (destruct H as [<- | H]; [reflexivity|]). destruct H. Qed.

Lemma dash_plain c : In c LogLine.DASH_CLASS -> not_tomato_head c.
Proof.
  cbn. intros H.
  repeat (destruct H as [<- | H]; [unfold not_tomato_head; discriminate|]). destruct H.
Qed.

Lemma span_digits ds : forall c r,
  Forall digit ds -> is_digit c = false ->
  span is_digit (ds ++ c :: r) = (ds, c :: r).
Proof.
  induction ds as [|d ds IH]; intros c r F Hc; cbn.
  - rewrite Hc. reflexivity.
  - inversion F as [|? ? Hd F']; subst. unfold digit in Hd. rewrite Hd.
    rewrite IH by assumption. reflexivity.
Qed.

Lemma ws_plus_one c r :
  is_space c = false -> LogLine.ws_plus (32 :: c :: r) = Some (c :: r).
Proof.
  intros H. unfold LogLine.ws_plus. change (is_space 32) with true.
  cbn [dropWhile]. rewrite H. reflexivity.
Qed.

Lemma ws_star_one c r : is_space c = false -> LogLine.ws_star (32 :: c :: r) = c :: r.
Proof.
  intros H. unfold LogLine.ws_star. cbn [dropWhile]. change (is_space 32) with true.
  cbn iota. rewrite H. reflexivity.
Qed.

Lemma take_digits_2 a b r :
  digit a -> digit b -> take_digits 2 (a :: b :: r) = Some ([a; b], r).
Proof. unfold digit. intros Ha Hb. cbn [take_digits]. rewrite Ha, Hb. reflexivity. Qed.

Lemma take_digits_4 a b c d r :
  digit a -> digit b -> digit c -> digit d ->
  take_digits 4 (a :: b :: c :: d :: r) = Some ([a; b; c; d], r).
Proof.
  unfold digit. intros Ha Hb Hc Hd. cbn [take_digits]. rewrite Ha, Hb, Hc, Hd. reflexivity.
Qed.

Ltac split_digits :=
  repeat match goal with H : Forall digit (_ :: _) |- _ => inversion H; clear H; subst end.

Lemma date_group_ok y1 y2 y3 y4 m1 m2 d1 d2 r :
  Forall digit [y1; y2; y3; y4; m1; m2; d1; d2] ->
  LogLine.date_group (y1 :: y2 :: y3 :: y4 :: 45 :: m1 :: m2 :: 45 :: d1 :: d2 :: r)
  = Some ([y1; y2; y3; y4; 45; m1; m2; 45; d1; d2], r).
Proof.
  intros F. split_digits.
  unfold LogLine.date_group. rewrite take_digits_4 by assumption. cbn [expect Z.eqb Pos.eqb].
  rewrite take_digits_2 by assumption. cbn [expect Z.eqb Pos.eqb].
  rewrite take_digits_2 by assumption. reflexivity.
Qed.

Lemma time_group_ok h1 h2 n1 n2 r :
  Forall digit [h1; h2; n1; n2] ->
  LogLine.time_group (h1 :: h2 :: 58 :: n1 :: n2 :: r) = Some ([h1; h2; 58; n1; n2], r).
Proof.
  intros F. split_digits.
  unfold LogLine.time_group. rewrite take_digits_2 by assumption. cbn [expect Z.eqb Pos.eqb].
  rewrite take_digits_2 by assumption. reflexivity.
Qed.

(** A line of the written layout, with one dash of the class, is matched,
    and its four groups are the date, the two times and the minutes. *)
Lemma match_layout y1 y2 y3 y4 m1 m2 d1 d2 h1 h2 n1 n2 c h3 h4 n3 n4 ds :
  Forall digit [y1; y2; y3; y4; m1; m2; d1; d2] ->
  Forall digit [h1; h2; n1; n2] ->
  Forall digit [h3; h4; n3; n4] ->
  In c LogLine.DASH_CLASS ->
  Forall digit ds -> ds <> [] ->
  LogLine.match_ ([43; 43; 32; y1; y2; y3; y4; 45; m1; m2; 45; d1; d2; 32;
                   h1; h2; 58; n1; n2; 32; c; 32; h3; h4; 58; n3; n4; 32; 40]
                  ++ ds ++ [32; 109; 41])
  = Some (LogLine.mkGroups [y1; y2; y3; y4; 45; m1; m2; 45; d1; d2]
                           [h1; h2; 58; n1; n2] [h3; h4; 58; n3; n4] ds).
Proof.
  intros Fd Fs Fe Hc Fm Hne.
  assert (Hy1 : is_space y1 = false) by (apply digit_not_space; inversion Fd; assumption).
  assert (Hh1 : is_space h1 = false) by (apply digit_not_space; inversion Fs; assumption).
  assert (Hh3 : is_space h3 = false) by (apply digit_not_space; inversion Fe; assumption).
  unfold LogLine.match_, LogLine.bullet.
  cbn [LogLine.one_of app existsb Z.eqb orb Pos.eqb].
  unfold LogLine.after_bullet, LogLine.marker. change (str "++") with [43; 43].
  unfold LogLine.lit. cbn [starts_with Z.eqb Pos.eqb andb List.length skipn].
  rewrite (ws_plus_one _ _ Hy1).
  rewrite (date_group_ok _ _ _ _ _ _ _ _ _ Fd).
  rewrite (ws_plus_one _ _ Hh1).
  rewrite (time_group_ok _ _ _ _ _ Fs).
  rewrite (ws_star_one _ _ (dash_not_space c Hc)).
  cbn [LogLine.one_of]. rewrite (dash_in_class c Hc).
  rewrite (ws_star_one _ _ Hh3).
  rewrite (time_group_ok _ _ _ _ _ Fe).
  change (LogLine.ws_plus (32 :: 40 :: ?r)) with (Some (40 :: r)).
  cbn [expect Z.eqb Pos.eqb].
  unfold LogLine.digits_plus. rewrite (span_digits ds 32 [109; 41] Fm eq_refl).
  destruct ds as [|d0 ds']; [congruence|].
  change (LogLine.ws_plus [32; 109; 41]) with (Some [109; 41]).
  reflexivity.
Qed.

Lemma dropWhile_head p a r : p a = false -> dropWhile p (a :: r) = a :: r.
Proof. intros H. cbn. rewrite H. reflexivity. Qed.

Lemma trim_id a m z :
  is_space a = false -> is_space z = false -> trim (a :: m ++ [z]) = a :: m ++ [z].
Proof.
  intros Ha Hz. unfold trim. rewrite dropWhile_head by exact Ha.
  change (a :: m ++ [z]) with ((a :: m) ++ [z]).
  rewrite rev_app_distr. cbn [rev app]. rewrite dropWhile_head by exact Hz.
  change (z :: rev m ++ [a]) with ([z] ++ rev (a :: m)).
  rewrite rev_app_distr, rev_involutive. reflexivity.
Qed.

(* ================================================================== *)
(** * The calendar                                                     *)
(* ================================================================== *)

(** The year of a day of the 400-year era, and the day of that year. *)
Lemma year_of_era doe :
  0 <= doe < 146097 ->
  let yoe := (doe - doe / 1460 + doe / 36524 - doe / 146096) / 365 in
  let doy := doe - (365 * yoe + yoe / 4 - yoe / 100) in
  0 <= yoe < 400 /\ 0 <= doy <= 365 /\
  (doy = 365 -> (yoe + 1) mod 4 = 0 /\ ((yoe + 1) mod 100 <> 0 \/ yoe = 399)).
Proof. intros H. cbv zeta. Z.div_mod_to_equations. lia. Qed.

Lemma all_from_spec f n : forall lo,
  all_from f lo n = true -> forall z, lo <= z < lo + Z.of_nat n -> f z = true.
Proof.
  induction n as [|n IH]; intros lo H z Hz; [lia|].
  cbn [all_from] in H. destruct (f lo) eqn:E; [|discriminate].
  destruct (Z.eq_dec z lo) as [->|Hne]; [exact E|].
  apply (IH (lo + 1) H). lia.
Qed.

Lemma month_day_table doy : 0 <= doy <= 365 -> month_day_ok doy = true.
Proof.
  intros H. apply (all_from_spec month_day_ok 366 0); [vm_compute; reflexivity | lia].
Qed.

Lemma leap_shift y e : Moment.isLeapYear (y + e * 400) = Moment.isLeapYear y.
Proof.
  unfold Moment.isLeapYear.
  replace ((y + e * 400) mod 4) with (y mod 4)
    by (replace (e * 400) with (e * 100 * 4) by lia; rewrite Z.mod_add by lia; reflexivity).
  replace ((y + e * 400) mod 100) with (y mod 100)
    by (replace (e * 400) with (e * 4 * 100) by lia; rewrite Z.mod_add by lia; reflexivity).
  rewrite Z.mod_add by lia. reflexivity.
Qed.

(** The civil date of a day number gives the day number back and passes
    the overflow check of the parser. *)
Lemma civil_roundtrip z :
  let '(y, m, d) := Moment.civil_from_days z in
  Moment.days_from_civil y m d = z /\ 1 <= m <= 12 /\ 1 <= d <= Moment.daysInMonth y m.
Proof.
  unfold Moment.civil_from_days.
  set (z' := z + 719468). set (era := z' / 146097). set (doe := z' mod 146097).
  assert (Hdoe : 0 <= doe < 146097) by (apply Z.mod_pos_bound; lia).
  assert (Hz : z' = 146097 * era + doe) by (apply Z.div_mod; lia).
  pose proof (year_of_era doe Hdoe) as Hy. cbv zeta in Hy.
  set (yoe := (doe - doe / 1460 + doe / 36524 - doe / 146096) / 365) in *.
  set (doy := doe - (365 * yoe + yoe / 4 - yoe / 100)) in *.
  destruct Hy as (Hyoe & Hdoy & Hleap).
  pose proof (month_day_table doy Hdoy) as Hmd. unfold month_day_ok in Hmd.
  set (mp := (5 * doy + 2) / 153) in *.
  set (d := doy - (153 * mp + 2) / 5 + 1) in *.
  set (m := if mp <? 10 then mp + 3 else mp - 9) in *.
  apply andb_true_iff in Hmd as [Hmd Hdmax].
  apply andb_true_iff in Hmd as [Hmd Hdmin].
  apply andb_true_iff in Hmd as [Hmd Hmmax].
  apply andb_true_iff in Hmd as [Hmp Hmmin].
  apply Z.eqb_eq in Hmp. apply Z.leb_le in Hmmin, Hmmax, Hdmin.
  split; [|split; [lia|split; [lia|]]].
  - unfold Moment.days_from_civil.
    assert (Hy' : (if m <=? 2 then (if m <=? 2 then yoe + era * 400 + 1 else yoe + era * 400) - 1
                   else (if m <=? 2 then yoe + era * 400 + 1 else yoe + era * 400))
                  = yoe + era * 400) by (destruct (m <=? 2); lia).
    rewrite Hy'. rewrite Hmp.
    replace ((yoe + era * 400) / 400) with era
      by (rewrite Z.div_add by lia; rewrite Z.div_small by lia; lia).
    replace (yoe + era * 400 - era * 400) with yoe by lia.
    subst d doy. lia.
  - revert Hdmax. unfold Moment.daysInMonth.
    destruct (Z.eqb_spec m 2) as [Hm2|Hm2].
    + destruct (Z.leb_spec m 2); [|lia].
      destruct (Z.eqb_spec doy 365) as [H365|H365];
        [|intros Hdmax; apply Z.leb_le in Hdmax; destruct (Moment.isLeapYear _); lia].
      intros Hdmax; apply Z.leb_le in Hdmax.
      replace (yoe + era * 400 + 1) with (yoe + 1 + era * 400) by lia.
      rewrite leap_shift. unfold Moment.isLeapYear.
      destruct (Hleap H365) as (Hq4 & Hq100).
      rewrite Hq4. cbn [Z.eqb andb].
      destruct Hq100 as [Hq100 | H399].
      * destruct (Z.eqb_spec ((yoe + 1) mod 100) 0); [contradiction|]. cbn [negb orb]. lia.
      * rewrite H399. cbn. lia.
    + destruct ((m =? 4) || (m =? 6) || (m =? 9) || (m =? 11));
        intros Hdmax; apply Z.leb_le in Hdmax; lia.
Qed.

(** Hour and minute of a local time, and the minute they stand for. *)
Lemma clock_fields t :
  let msod := t mod Moment.ms_per_day in
  let h := msod / Moment.ms_per_hour in
  let mi := msod / Moment.ms_per_minute mod 60 in
  0 <= h < 24 /\ 0 <= mi < 60 /\
  t / Moment.ms_per_day * Moment.ms_per_day + h * Moment.ms_per_hour
    + mi * Moment.ms_per_minute
  = t / Moment.ms_per_minute * Moment.ms_per_minute.
Proof.
  unfold Moment.ms_per_day, Moment.ms_per_hour, Moment.ms_per_minute. cbv zeta.
  Z.div_mod_to_equations. lia.
Qed.

(* ================================================================== *)
(** * Writing a session and reading it back                            *)
(* ================================================================== *)

Lemma format_date_shape tz t :
  0 <= local_year tz t <= 9999 ->
  exists y1 y2 y3 y4 m1 m2 d1 d2,
    Moment.format_date tz t = [y1; y2; y3; y4; 45; m1; m2; 45; d1; d2] /\
    Forall digit [y1; y2; y3; y4; m1; m2; d1; d2] /\
    Moment.civil_from_days (local_day tz t) =
      (parseInt [y1; y2; y3; y4], parseInt [m1; m2], parseInt [d1; d2]).
Proof.
  unfold local_year, Moment.format_date. fold (local_day tz t).
  pose proof (civil_roundtrip (local_day tz t)) as R.
  destruct (Moment.civil_from_days (local_day tz t)) as [[y m] d]. cbn [fst].
  destruct R as (_ & Hm & Hd). intros Hy.
  assert (Hd' : d <= 31).
  { unfold Moment.daysInMonth in Hd.
    destruct (m =? 2); [destruct (Moment.isLeapYear y); lia|].
    destruct ((m =? 4) || (m =? 6) || (m =? 9) || (m =? 11)); lia. }
  destruct (zeroFill_spec y 4) as (Ly & Fy & Py);
    [lia | change (10 ^ Z.of_nat 4) with 10000; lia |].
  destruct (zeroFill_spec m 2) as (Lm & Fm & Pm);
    [lia | change (10 ^ Z.of_nat 2) with 100; lia |].
  destruct (zeroFill_spec d 2) as (Ld & Fd & Pd);
    [lia | change (10 ^ Z.of_nat 2) with 100; lia |].
  change (Z.of_nat 4) with 4 in *. change (Z.of_nat 2) with 2 in *.
  destruct (four_digits _ Ly Fy) as (y1 & y2 & y3 & y4 & Ey & ? & ? & ? & ?).
  destruct (two_digits _ Lm Fm) as (m1 & m2 & Em & ? & ?).
  destruct (two_digits _ Ld Fd) as (d1 & d2 & Ed & ? & ?).
  exists y1, y2, y3, y4, m1, m2, d1, d2.
  rewrite Ey in *. rewrite Em in *. rewrite Ed in *.
  split; [reflexivity|]. split; [repeat constructor; assumption|].
  rewrite Py, Pm, Pd. reflexivity.
Qed.

Lemma format_time_shape tz t :
  exists h1 h2 n1 n2,
    Moment.format_time tz t = [h1; h2; 58; n1; n2] /\
    Forall digit [h1; h2; n1; n2] /\
    parseInt [h1; h2] = Moment.local_ms tz t mod Moment.ms_per_day / Moment.ms_per_hour /\
    parseInt [n1; n2]
      = Moment.local_ms tz t mod Moment.ms_per_day / Moment.ms_per_minute mod 60.
Proof.
  unfold Moment.format_time.
  pose proof (clock_fields (Moment.local_ms tz t)) as C. cbv zeta in C.
  destruct C as (Hh & Hmi & _).
  set (h := Moment.local_ms tz t mod Moment.ms_per_day / Moment.ms_per_hour) in *.
  set (mi := Moment.local_ms tz t mod Moment.ms_per_day / Moment.ms_per_minute mod 60) in *.
  destruct (zeroFill_spec h 2) as (Lh & Fh & Ph);
    [lia | change (10 ^ Z.of_nat 2) with 100; lia |].
  destruct (zeroFill_spec mi 2) as (Lm & Fm & Pm);
    [lia | change (10 ^ Z.of_nat 2) with 100; lia |].
  change (Z.of_nat 2) with 2 in *.
  destruct (two_digits _ Lh Fh) as (h1 & h2 & Eh & ? & ?).
  destruct (two_digits _ Lm Fm) as (n1 & n2 & Em & ? & ?).
  exists h1, h2, n1, n2. rewrite Eh in *. rewrite Em in *.
  split; [reflexivity|]. split; [repeat constructor; assumption|]. split; assumption.
Qed.

Lemma parse_explicit tz y1 y2 y3 y4 m1 m2 d1 d2 h1 h2 n1 n2 :
  Forall digit [y1; y2; y3; y4; m1; m2; d1; d2] -> Forall digit [h1; h2; n1; n2] ->
  Moment.parse tz ([y1; y2; y3; y4; 45; m1; m2; 45; d1; d2] ++ str " " ++ [h1; h2; 58; n1; n2]) =
  let y := parseInt [y1; y2; y3; y4] in let m := parseInt [m1; m2] in
  let d := parseInt [d1; d2] in let h := parseInt [h1; h2] in let mi := parseInt [n1; n2] in
  if Moment.fields_valid y m d h mi then
    Some (Moment.days_from_civil y m d * Moment.ms_per_day + h * Moment.ms_per_hour
          + mi * Moment.ms_per_minute - tz * Moment.ms_per_minute)
  else None.
Proof.
  intros Fd Ft. split_digits.
  unfold Moment.parse, Moment.read_fields. change (str " ") with [32]. cbn [app].
  rewrite take_digits_4 by assumption. cbn [expect Z.eqb Pos.eqb].
  rewrite take_digits_2 by assumption. cbn [expect Z.eqb Pos.eqb].
  rewrite take_digits_2 by assumption. cbn [expect Z.eqb Pos.eqb].
  rewrite take_digits_2 by assumption. cbn [expect Z.eqb Pos.eqb].
  rewrite take_digits_2 by assumption. reflexivity.
Qed.

(** The written date of one timestamp with the written clock time of
    another on the same local day reads back as the second timestamp cut to
    the minute. *)
Lemma parse_written tz t u y1 y2 y3 y4 m1 m2 d1 d2 h1 h2 n1 n2 :
  Forall digit [y1; y2; y3; y4; m1; m2; d1; d2] ->
  Moment.civil_from_days (local_day tz t) =
      (parseInt [y1; y2; y3; y4], parseInt [m1; m2], parseInt [d1; d2]) ->
  Forall digit [h1; h2; n1; n2] ->
  parseInt [h1; h2] = Moment.local_ms tz u mod Moment.ms_per_day / Moment.ms_per_hour ->
  parseInt [n1; n2]
    = Moment.local_ms tz u mod Moment.ms_per_day / Moment.ms_per_minute mod 60 ->
  local_day tz t = local_day tz u ->
  Moment.parse tz ([y1; y2; y3; y4; 45; m1; m2; 45; d1; d2] ++ str " " ++ [h1; h2; 58; n1; n2])
  = Some (minute_floor u).
Proof.
  intros Fd Ec Ft Eh Emi Hday.
  rewrite (parse_explicit tz _ _ _ _ _ _ _ _ _ _ _ _ Fd Ft). cbv zeta.
  pose proof (civil_roundtrip (local_day tz t)) as R. rewrite Ec in R.
  destruct R as (Rd & Rm & Rday).
  pose proof (clock_fields (Moment.local_ms tz u)) as C. cbv zeta in C.
  destruct C as (Hh & Hmi & Hsum).
  rewrite <- Eh in Hh, Hsum. rewrite <- Emi in Hmi, Hsum.
  assert (V : Moment.fields_valid (parseInt [y1; y2; y3; y4]) (parseInt [m1; m2])
                (parseInt [d1; d2]) (parseInt [h1; h2]) (parseInt [n1; n2]) = true).
  { unfold Moment.fields_valid.
    repeat (apply andb_true_iff; split); try (apply Z.leb_le; lia).
    apply orb_true_iff. left. apply Z.ltb_lt. lia. }
  rewrite V, Rd. f_equal.
  rewrite Hday. unfold local_day.
  unfold minute_floor, Moment.local_ms, Moment.ms_per_minute in *.
  replace ((u + tz * 60000) / 60000) with (u / 60000 + tz) in Hsum
    by (rewrite Z.div_add by lia; reflexivity).
  lia.
Qed.

Lemma round_minutes d :
  30000 <= d ->
  1 <= Math_round_div d 60000 /\ -30000 < Math_round_div d 60000 * 60000 - d <= 30000.
Proof. intros H. unfold Math_round_div. Z.div_mod_to_equations. lia. Qed.

Lemma minute_floor_spec t : 0 <= t - minute_floor t < 60000.
Proof. unfold minute_floor. Z.div_mod_to_equations. lia. Qed.




(** The seconds of the two timestamps are not in the line: the same
    session laid out with a hyphen comes back starting at 00:00:00 and
    ending at 00:25:00. *)
Example seconds_are_dropped :
  LogLine.session_of_line 0 (card "A") (LogLine.layout [45] 0 1000 1501000 1500000)
  = Some (FocusSession.mk (Some "A"%string) (Some (str "A")) stopwatch 0 1500000 1500000).
Proof. vm_compute. reflexivity. Qed.

(** A session that crosses local midnight is written with the date of
    its start only, and its line is dropped by the end-after-start
    test. *)
Example midnight_session_dropped :
  LogLine.session_of_line 0 (card "A")
    (LogLine.layout [45] 0 (86400000 - 600000) (86400000 + 600000) 1200000) = None.
Proof. vm_compute. reflexivity. Qed.
